(** * pg-promise, [lib/txMode.js]: the transaction-mode command builder

    A shallow embedding of [lib/txMode.js] and of the part of the
    ECMAScript runtime that the file relies on (the coercions behind [>],
    [parseInt], [if (...)], [typeof], [toUpperCase] and [Object.freeze]),
    followed by the properties of the [BEGIN] command text it builds. *)

From Stdlib Require Import ZArith Ascii String Lia.
From Stdlib Require Import DecimalString DecimalPos DecimalFacts.
From stdpp Require Import base option list strings gmap fin_maps.

(** ** The ECMAScript values the module can be handed *)

Module Js.

(** An abrupt completion: a [TypeError] raised by the runtime, or whatever
    user code (a getter, [valueOf], [toString]) threw. *)
Inductive exn := TypeError | UserThrown.

Inductive completion (A : Type) :=
| Normal (a : A)
| Throw (e : exn).
Arguments Normal {A} a.
Arguments Throw {A} e.

#[global] Instance completion_ret : MRet completion := λ A, Normal.
#[global] Instance completion_bind : MBind completion :=
  λ A B f m, match m with Normal a => f a | Throw e => Throw e end.

(** A Number, as [Number::toString] sees it (ECMA-262, 6.1.6.1.20): a finite
    non-zero Number is given by the integers [s] and [n] of that clause, the
    shortest decimal [s * 10^(n-k)] ([k] the number of digits of [s]) that
    reads back as the same double.  Every double has one such pair; the type
    has more pairs than there are doubles, so a statement over all of
    [number] covers every double. *)
Inductive number :=
| NNaN
| NInf (neg : bool)
| NZero (neg : bool)
| NFin (neg : bool) (s : positive) (n : Z).

Inductive prim :=
| PUndefined
| PNull
| PBoolean (b : bool)
| PNumber (x : number)
| PString (s : string)
| PSymbol (id : nat)
| PBigInt (z : Z).

Inductive hint := HintNumber | HintString.

(** An object is what the module can observe of it: whether it is callable
    ([typeof]), the completion of reading a property ([[Get]], which runs
    getters), and the completion of [ToPrimitive] under each hint (which runs
    [Symbol.toPrimitive], [valueOf] and [toString]).  The module makes each
    observation at most once, so a fixed completion per observation loses
    nothing. *)
#[local] Set Warnings "-register-all".
Inductive value :=
| VPrim (p : prim)
| VObject (callable : bool)
          (get : string → completion value)
          (toPrimitive : hint → completion prim).
#[local] Set Warnings "register-all".

Definition undefined : value := VPrim PUndefined.
Definition null : value := VPrim PNull.
Definition VBool (b : bool) : value := VPrim (PBoolean b).
Definition VNum (x : number) : value := VPrim (PNumber x).
Definition VStr (s : string) : value := VPrim (PString s).

(** *** Decimal digits *)

Definition digits (s : positive) : string :=
  NilEmpty.string_of_uint (Pos.to_uint s).

Definition decimal (z : N) : string :=
  NilEmpty.string_of_uint (N.to_uint z).

Fixpoint zeros (n : nat) : string :=
  match n with
  | O => ""
  | S n => String "0" (zeros n)
  end.

Definition take (n : nat) (s : string) : string := String.substring 0 n s.
Definition drop (n : nat) (s : string) : string :=
  String.substring n (String.length s - n) s.

(** [z] without its trailing zeros, at most [fuel] of them. *)
Fixpoint strip_zeros (fuel : nat) (z : Z) : Z :=
  match fuel with
  | O => z
  | S fuel => if (z mod 10 =? 0)%Z then strip_zeros fuel (z / 10)%Z else z
  end.

(** The Number of an integer [z] that is a double: [s] is [|z|] without its
    trailing zeros, [n] the number of digits of [|z|]. *)
Definition number_of_Z (z : Z) : number :=
  match z with
  | Z0 => NZero false
  | _ =>
      let k := String.length (decimal (Z.abs_N z)) in
      NFin (z <? 0)%Z (Z.to_pos (strip_zeros k (Z.abs z))) (Z.of_nat k)
  end.

(** *** [Number::toString], radix 10 *)

Definition Number_toString (x : number) : string :=
  match x with
  | NNaN => "NaN"
  | NZero _ => "0"
  | NInf neg => (if neg then "-" else "") +:+ "Infinity"
  | NFin neg s n =>
      let ds := digits s in
      let k := Z.of_nat (String.length ds) in
      let e := (n - 1)%Z in
      (if neg then "-" else "") +:+
      (if ((k <=? n) && (n <=? 21))%Z then
         ds +:+ zeros (Z.to_nat (n - k))
       else if ((0 <? n) && (n <=? 21))%Z then
         take (Z.to_nat n) ds +:+ "." +:+ drop (Z.to_nat n) ds
       else if ((-6 <? n) && (n <=? 0))%Z then
         "0." +:+ zeros (Z.to_nat (- n)) +:+ ds
       else
         let exponent :=
           "e" +:+ (if (e <? 0)%Z then "-" else "+") +:+ decimal (Z.abs_N e) in
         if (k =? 1)%Z then ds +:+ exponent
         else take 1 ds +:+ "." +:+ drop 1 ds +:+ exponent)
  end.

(** *** Type conversion *)

Definition typeof (v : value) : string :=
  match v with
  | VPrim PUndefined => "undefined"
  | VPrim PNull => "object"
  | VPrim (PBoolean _) => "boolean"
  | VPrim (PNumber _) => "number"
  | VPrim (PString _) => "string"
  | VPrim (PSymbol _) => "symbol"
  | VPrim (PBigInt _) => "bigint"
  | VObject callable _ _ => if callable then "function" else "object"
  end.

Definition ToBoolean (v : value) : bool :=
  match v with
  | VPrim PUndefined | VPrim PNull => false
  | VPrim (PBoolean b) => b
  | VPrim (PNumber (NNaN | NZero _)) => false
  | VPrim (PNumber _) => true
  | VPrim (PString s) => negb (String.eqb s "")
  | VPrim (PSymbol _) => true
  | VPrim (PBigInt z) => negb (z =? 0)%Z
  | VObject _ _ _ => true
  end.

(** [v === undefined] *)
Definition is_undefined (v : value) : bool :=
  match v with
  | VPrim PUndefined => true
  | _ => false
  end.

Definition ToPrimitive (v : value) (h : hint) : completion prim :=
  match v with
  | VPrim p => Normal p
  | VObject _ _ toPrimitive => toPrimitive h
  end.

(** [o.P] for an object [o]; the module reads properties only behind its
    [typeof tiLevel === 'object'] test, where the value is an object. *)
Definition Get (v : value) (P : string) : completion value :=
  match v with
  | VObject _ get _ => get P
  | VPrim (PUndefined | PNull) => Throw TypeError
  | VPrim _ => Normal undefined
  end.

Definition ToString_prim (p : prim) : completion string :=
  match p with
  | PUndefined => Normal "undefined"
  | PNull => Normal "null"
  | PBoolean b => Normal (if b then "true" else "false")
  | PNumber x => Normal (Number_toString x)
  | PString s => Normal s
  | PSymbol _ => Throw TypeError
  | PBigInt z =>
      Normal ((if (z <? 0)%Z then "-" else "") +:+ decimal (Z.abs_N z))
  end.

Definition ToString (v : value) : completion string :=
  p ← ToPrimitive v HintString; ToString_prim p.

(** *** Numeric strings

    Strings are sequences of code units below 256 (Latin-1).
    [StrWhiteSpaceChar] in that range: TAB, LF, VT, FF, CR, SP, NBSP. *)

Definition code (c : ascii) : Z := Z.of_N (N_of_ascii c).

Definition is_whitespace (c : ascii) : bool :=
  let n := code c in
  ((9 <=? n) && (n <=? 13) || (n =? 32) || (n =? 160))%Z.

Fixpoint trim_start (s : string) : string :=
  match s with
  | String c r => if is_whitespace c then trim_start r else s
  | EmptyString => s
  end.

Fixpoint trim_end (s : string) : string :=
  match s with
  | String c r =>
      let r' := trim_end r in
      if is_whitespace c && String.eqb r' "" then "" else String c r'
  | EmptyString => s
  end.

(** The value of [c] as a digit of radix [R] (2 to 36), if it is one. *)
Definition digit_of (R : Z) (c : ascii) : option Z :=
  let n := code c in
  let d :=
    if ((48 <=? n) && (n <=? 57))%Z then Some (n - 48)%Z
    else if ((97 <=? n) && (n <=? 122))%Z then Some (n - 87)%Z
    else if ((65 <=? n) && (n <=? 90))%Z then Some (n - 55)%Z
    else None in
  match d with
  | Some d => if (d <? R)%Z then Some d else None
  | None => None
  end.

(** Reads the longest prefix of radix-[R] digits; [acc] is the value read so
    far, [None] when no digit was read yet.  Returns what is left as well. *)
Fixpoint read_digits (R : Z) (acc : option Z) (s : string) : option Z * string :=
  match s with
  | String c r =>
      match digit_of R c with
      | Some d => read_digits R (Some (default 0 acc * R + d)%Z) r
      | None => (acc, s)
      end
  | EmptyString => (acc, s)
  end.

(** The result of [parseInt]: [NaN] or an integer-valued Number.  The integer
    is kept exact; the module only compares it with [0] and [4] and subtracts
    [1] from [1], [2] or [3], where rounding to a double (monotone, and exact
    on small integers) changes nothing, as does the sign of a zero. *)
Inductive parsed := PNaN | PInt (z : Z).

(** [parseInt(string)] with no radix (ECMA-262, 19.2.5), after [ToString]. *)
Definition parseInt_string (inputString : string) : parsed :=
  let str := trim_start inputString in
  let '(sign, str) :=
    match str with
    | String "-" r => ((-1)%Z, r)
    | String "+" r => (1%Z, r)
    | _ => (1%Z, str)
    end in
  let '(R, str) :=
    match str with
    | String "0" (String "x" r) | String "0" (String "X" r) => (16%Z, r)
    | _ => (10%Z, str)
    end in
  match read_digits R None str with
  | (Some mathInt, _) => PInt (sign * mathInt)
  | (None, _) => PNaN
  end.

Definition parseInt (v : value) : completion parsed :=
  inputString ← ToString v; Normal (parseInt_string inputString).

(** The mathematical value of a [StringNumericLiteral] (ECMA-262, 7.1.4.1),
    before it is rounded to a double. *)
Inductive literal :=
| LNaN
| LInfinity (neg : bool)
| LDecimal (neg : bool) (m : Z) (e : Z).   (* [± m * 10^e], [0 <= m] *)

Definition count_digits (s : string) : Z :=
  Z.of_nat (String.length s - String.length (snd (read_digits 10 None s))).

(** [(e|E) [+-] DecimalDigits] up to the end of the string, or nothing. *)
Definition exponent_part (s : string) : option Z :=
  match s with
  | EmptyString => Some 0%Z
  | String c r =>
      if Ascii.eqb c "e" || Ascii.eqb c "E" then
        let '(sign, r) :=
          match r with
          | String "-" r' => ((-1)%Z, r')
          | String "+" r' => (1%Z, r')
          | _ => (1%Z, r)
          end in
        match read_digits 10 None r with
        | (Some e, EmptyString) => Some (sign * e)%Z
        | _ => None
        end
      else None
  end.

Definition unsigned_decimal (neg : bool) (s : string) : literal :=
  if String.eqb s "Infinity" then LInfinity neg
  else
    (* DecimalDigits_opt, then "." DecimalDigits_opt *)
    let '(int, s1) := read_digits 10 None s in
    let '(m, k, s2) :=
      match s1 with
      | String "." r =>
          let '(m, r') := read_digits 10 int r in (m, count_digits r, r')
      | _ => (int, 0%Z, s1)
      end in
    (* [m = None]: no digit on either side of the point *)
    match m, exponent_part s2 with
    | Some m, Some e => LDecimal neg m (e - k)
    | _, _ => LNaN
    end.

Definition non_decimal (R : Z) (s : string) : literal :=
  match read_digits R None s with
  | (Some m, EmptyString) => LDecimal false m 0
  | _ => LNaN
  end.

Definition StringToNumber (s : string) : literal :=
  match trim_end (trim_start s) with
  | EmptyString => LDecimal false 0 0
  | String "0" (String "x" r) | String "0" (String "X" r) => non_decimal 16 r
  | String "0" (String "o" r) | String "0" (String "O" r) => non_decimal 8 r
  | String "0" (String "b" r) | String "0" (String "B" r) => non_decimal 2 r
  | String "-" r => unsigned_decimal true r
  | String "+" r => unsigned_decimal false r
  | t => unsigned_decimal false t
  end.

(** [0 < ToNumber(s)]: the literal rounds to a positive double, that is, it
    lies above [2^-1075], half the least positive double (a tie goes to the
    even neighbour, [+0]). *)
Definition literal_positive (l : literal) : bool :=
  match l with
  | LNaN => false
  | LInfinity neg => negb neg
  | LDecimal neg m e =>
      negb neg &&
      (if (0 <=? e)%Z then (0 <? m)%Z
       else (10 ^ (- e) <? m * 2 ^ 1075)%Z)
  end.

(** [0 < x] on Numbers. *)
Definition number_positive (x : number) : bool :=
  match x with
  | NInf false | NFin false _ _ => true
  | _ => false
  end.

(** [v > 0]: [ToPrimitive] with hint Number, [ToNumeric], then the comparison
    (ECMA-262, 7.2.13); an undefined comparison (NaN) counts as [false]. *)
Definition gt0_prim (p : prim) : completion bool :=
  match p with
  | PUndefined => Normal false              (* NaN *)
  | PNull => Normal false                   (* +0 *)
  | PBoolean b => Normal b                  (* 1 or +0 *)
  | PNumber x => Normal (number_positive x)
  | PString s => Normal (literal_positive (StringToNumber s))
  | PSymbol _ => Throw TypeError
  | PBigInt z => Normal (0 <? z)%Z
  end.

Definition gt0 (v : value) : completion bool :=
  p ← ToPrimitive v HintNumber; gt0_prim p.

(** [String.prototype.toUpperCase] on ASCII text (all that the module
    applies it to). *)
Definition upper (c : ascii) : ascii :=
  let n := code c in
  if ((97 <=? n) && (n <=? 122))%Z then ascii_of_N (Z.to_N (n - 32)) else c.

Fixpoint toUpperCase (s : string) : string :=
  match s with
  | String c r => String (upper c) (toUpperCase r)
  | EmptyString => EmptyString
  end.

End Js.

(** ** Ordinary objects and [Object.freeze] *)

Module JsObject.
Import Js.

(** What a property can hold: a primitive, or a reference to an object
    (compared by identity). *)
Inductive stored :=
| SPrim (p : prim)
| SRef (loc : nat).

#[global] Instance number_eq_dec : EqDecision number.
Proof. solve_decision. Defined.
#[global] Instance prim_eq_dec : EqDecision prim.
Proof. solve_decision. Defined.
#[global] Instance stored_eq_dec : EqDecision stored.
Proof. solve_decision. Defined.

(** [SameValue]: [NaN] is itself and the two zeros differ, as in [number]. *)
Definition SameValue (x y : stored) : bool := bool_decide (x = y).

(** A property with its attributes (ECMA-262, 6.1.7.1); [get] and [set] are
    a function reference or [undefined]. *)
Inductive property :=
| DataProperty (value : stored) (writable enumerable configurable : bool)
| AccessorProperty (get set : option nat) (enumerable configurable : bool).

Definition enumerable (p : property) : bool :=
  match p with
  | DataProperty _ _ e _ | AccessorProperty _ _ e _ => e
  end.

Definition configurable (p : property) : bool :=
  match p with
  | DataProperty _ _ _ c | AccessorProperty _ _ _ c => c
  end.

(** A property descriptor: every field may be absent. *)
Record descriptor := {
  d_value : option stored;
  d_writable : option bool;
  d_get : option (option nat);
  d_set : option (option nat);
  d_enumerable : option bool;
  d_configurable : option bool
}.

Definition IsAccessorDescriptor (d : descriptor) : bool :=
  bool_decide (is_Some (d_get d)) || bool_decide (is_Some (d_set d)).

Definition IsDataDescriptor (d : descriptor) : bool :=
  bool_decide (is_Some (d_value d)) || bool_decide (is_Some (d_writable d)).

Record object := {
  properties : gmap string property;
  extensible : bool;
  prototype : option nat
}.

(** [true] when the field is absent or satisfies [f]. *)
Definition absent_or {A} (f : A → bool) (field : option A) : bool :=
  match field with
  | Some a => f a
  | None => true
  end.

(** A new property from a descriptor, absent fields at their defaults. *)
Definition new_property (d : descriptor) : property :=
  if IsAccessorDescriptor d then
    AccessorProperty (default None (d_get d)) (default None (d_set d))
      (default false (d_enumerable d)) (default false (d_configurable d))
  else
    DataProperty (default (SPrim PUndefined) (d_value d))
      (default false (d_writable d))
      (default false (d_enumerable d)) (default false (d_configurable d)).

(** What a non-configurable property lets through
    ([ValidateAndApplyPropertyDescriptor], ECMA-262, 10.1.6.3, step 4 on). *)
Definition permitted (current : property) (d : descriptor) : bool :=
  configurable current ||
  (absent_or negb (d_configurable d) &&
   absent_or (Bool.eqb (enumerable current)) (d_enumerable d) &&
   match current with
   | AccessorProperty get set _ _ =>
       negb (IsDataDescriptor d) &&
       absent_or (λ g, bool_decide (g = get)) (d_get d) &&
       absent_or (λ f, bool_decide (f = set)) (d_set d)
   | DataProperty value writable _ _ =>
       negb (IsAccessorDescriptor d) &&
       (writable ||
        absent_or negb (d_writable d) &&
        absent_or (SameValue value) (d_value d))
   end).

(** The property once the descriptor's fields are written over it. *)
Definition updated (current : property) (d : descriptor) : property :=
  let e := default (enumerable current) (d_enumerable d) in
  let c := default (configurable current) (d_configurable d) in
  match current with
  | DataProperty value writable _ _ =>
      if IsAccessorDescriptor d then
        AccessorProperty (default None (d_get d)) (default None (d_set d)) e c
      else
        DataProperty (default value (d_value d))
          (default writable (d_writable d)) e c
  | AccessorProperty get set _ _ =>
      if IsDataDescriptor d then
        DataProperty (default (SPrim PUndefined) (d_value d))
          (default false (d_writable d)) e c
      else
        AccessorProperty (default get (d_get d)) (default set (d_set d)) e c
  end.

Definition with_properties (O : object) (m : gmap string property) : object :=
  {| properties := m; extensible := extensible O; prototype := prototype O |}.

(** Each essential internal method that can change an object returns the
    object afterwards and its success flag; on [false] strict code gets a
    [TypeError] and sloppy code carries on. *)

(** [[DefineOwnProperty]]; a descriptor with both kinds of field never gets
    here ([ToPropertyDescriptor] throws). *)
Definition DefineOwnProperty (O : object) (P : string) (d : descriptor)
  : object * bool :=
  if IsAccessorDescriptor d && IsDataDescriptor d then (O, false)
  else
    match properties O !! P with
    | None =>
        if extensible O
        then (with_properties O (<[P := new_property d]> (properties O)), true)
        else (O, false)
    | Some current =>
        if permitted current d
        then (with_properties O (<[P := updated current d]> (properties O)), true)
        else (O, false)
    end.

(** [[Set]] with the object as receiver, no setter or read-only property of
    that name up the prototype chain.  A setter of the object itself is user
    code; its own effects are not followed. *)
Definition Set_ (O : object) (P : string) (V : stored) : object * bool :=
  match properties O !! P with
  | Some (DataProperty _ w e c) =>
      if w
      then (with_properties O (<[P := DataProperty V w e c]> (properties O)), true)
      else (O, false)
  | Some (AccessorProperty _ set _ _) => (O, bool_decide (is_Some set))
  | None =>
      if extensible O
      then (with_properties O
              (<[P := DataProperty V true true true]> (properties O)), true)
      else (O, false)
  end.

(** [[Delete]] *)
Definition Delete (O : object) (P : string) : object * bool :=
  match properties O !! P with
  | None => (O, true)
  | Some current =>
      if configurable current
      then (with_properties O (delete P (properties O)), true)
      else (O, false)
  end.

(** [[SetPrototypeOf]] *)
Definition SetPrototypeOf (O : object) (V : option nat) : object * bool :=
  if bool_decide (V = prototype O) then (O, true)
  else if extensible O then
    ({| properties := properties O; extensible := true; prototype := V |}, true)
  else (O, false).

(** [[PreventExtensions]] *)
Definition PreventExtensions (O : object) : object * bool :=
  ({| properties := properties O; extensible := false;
      prototype := prototype O |}, true).

(** [Object.freeze] ([SetIntegrityLevel], ECMA-262, 7.3.15): no extension,
    and every property redefined non-configurable, a data property
    non-writable as well. *)
Definition frozen_descriptor (p : property) : descriptor :=
  {| d_value := None;
     d_writable := match p with
                   | DataProperty _ _ _ _ => Some false
                   | AccessorProperty _ _ _ _ => None
                   end;
     d_get := None; d_set := None; d_enumerable := None;
     d_configurable := Some false |}.

Definition freeze (O : object) : object :=
  {| properties := (λ p, updated p (frozen_descriptor p)) <$> properties O;
     extensible := false;
     prototype := prototype O |}.

(** An object literal [{k1: v1, ...}]: each member a plain data property,
    the object extensible, its prototype [Object.prototype]. *)
Definition Object_prototype : nat := 0.

Definition literal (members : list (string * stored)) : object :=
  {| properties :=
       list_to_map
         (prod_map id (λ v, DataProperty v true true true) <$> members);
     extensible := true;
     prototype := Some Object_prototype |}.

(** The attempts to alter an object. *)
Inductive alteration :=
| ASet (P : string) (V : stored)
| ADelete (P : string)
| ADefineProperty (P : string) (d : descriptor)
| ASetPrototypeOf (V : option nat)
| APreventExtensions.

Definition attempt (O : object) (a : alteration) : object * bool :=
  match a with
  | ASet P V => Set_ O P V
  | ADelete P => Delete O P
  | ADefineProperty P d => DefineOwnProperty O P d
  | ASetPrototypeOf V => SetPrototypeOf O V
  | APreventExtensions => PreventExtensions O
  end.

End JsObject.

(** ** [lib/txMode.js] *)

Module TxMode.
Import Js JsObject.

(** Lines 8-22: the registry and its freezing. *)
Definition isolationLevel : object :=
  freeze (literal [("none", SPrim (PNumber (number_of_Z 0)));
                   ("serializable", SPrim (PNumber (number_of_Z 1)));
                   ("repeatableRead", SPrim (PNumber (number_of_Z 2)));
                   ("readCommitted", SPrim (PNumber (number_of_Z 3)))]).

(** The locals [isolationLevel], [accessMode] and [deferrableMode] hold
    [undefined] ([None]) or a string. *)
Definition truthy (v : option string) : bool :=
  match v with
  | Some s => negb (String.eqb s "")
  | None => false
  end.

Definition values : list string :=
  ["serializable"; "repeatable read"; "read committed"].

(** [values[i]] for an integer-valued [i]; [undefined] out of range. *)
Definition at_index (l : list string) (i : Z) : option string :=
  if (i <? 0)%Z then None else l !! Z.to_nat i.

(** ['isolation level ' + values[tiLevel - 1]] *)
Definition concat_value (s : string) (v : option string) : string :=
  s +:+ default "undefined" v.

(** Lines 59-63: a record as first argument replaces all three parameters. *)
Definition is_record (tiLevel : value) : bool :=
  ToBoolean tiLevel && String.eqb (typeof tiLevel) "object".

Definition unpack (tiLevel readOnly deferrable : value)
  : completion (value * value * value) :=
  if is_record tiLevel then
    readOnly ← Get tiLevel "readOnly";
    deferrable ← Get tiLevel "deferrable";
    tiLevel ← Get tiLevel "tiLevel";
    Normal (tiLevel, readOnly, deferrable)
  else Normal (tiLevel, readOnly, deferrable).

(** Line 67: [tiLevel = (tiLevel > 0) ? parseInt(tiLevel) : 0] *)
Definition normalize (tiLevel : value) : completion parsed :=
  positive ← gt0 tiLevel;
  if positive : bool then parseInt tiLevel else Normal (PInt 0).

(** Lines 69-72 *)
Definition isolation_clause (tiLevel : parsed) : option string :=
  match tiLevel with
  | PInt z =>
      if ((0 <? z) && (z <? 4))%Z then
        Some (concat_value "isolation level " (at_index values (z - 1)))
      else None
  | PNaN => None
  end.

(** Lines 74-80 *)
Definition access_clause (readOnly : value) : option string :=
  if ToBoolean readOnly then Some "read only"
  else if negb (is_undefined readOnly) then Some "read write"
  else None.

(** Lines 82-88 *)
Definition deferrable_clause (deferrable : value) : option string :=
  if ToBoolean deferrable then Some "deferrable"
  else if negb (is_undefined deferrable) then Some "not deferrable"
  else None.

(** [if (clause) { begin += ' ' + clause; }] *)
Definition add_clause (begin : string) (clause : option string) : string :=
  if truthy clause then begin +:+ concat_value " " clause else begin.

(** What the closure stored in [this.begin] captures. *)
Record instance := { begin : string; capBegin : string }.

(** Lines 65-106: the rest of the constructor, on the three parameters as
    they stand after lines 59-63. *)
Definition build (tiLevel readOnly deferrable : value)
  : completion instance :=
  tiLevel ← normalize tiLevel;
  let isolationLevel := isolation_clause tiLevel in
  let accessMode := access_clause readOnly in
  let deferrableMode := deferrable_clause deferrable in
  let begin := "begin" in
  let begin := add_clause begin isolationLevel in
  let begin := add_clause begin accessMode in
  let begin := add_clause begin deferrableMode in
  let capBegin := toUpperCase begin in
  Normal {| begin := begin; capBegin := capBegin |}.

(** Lines 59-106, the constructor proper: what runs once [this] is known to
    be an instance. *)
Definition construct (tiLevel readOnly deferrable : value)
  : completion instance :=
  '(tiLevel, readOnly, deferrable) ← unpack tiLevel readOnly deferrable;
  build tiLevel readOnly deferrable.

(** [this] on entry: [undefined] for a plain call (the file is strict),
    the fresh object for [new], anything else through [call]/[apply]. *)
Inductive this_binding :=
| ThisUndefined
| ThisFresh
| ThisOther (v : value).

(** [this instanceof TransactionMode]; an object foreign to the module does
    not inherit from [TransactionMode.prototype]. *)
Definition instanceof_TransactionMode (this : this_binding) : bool :=
  match this with
  | ThisFresh => true
  | ThisUndefined | ThisOther _ => false
  end.

(** Lines 53-107.  The function re-enters itself through [new]; [fuel]
    bounds the activations, [None] is fuel exhausted. *)
Fixpoint TransactionMode (fuel : nat) (this : this_binding)
    (tiLevel readOnly deferrable : value) : option (completion instance) :=
  match fuel with
  | O => None
  | S fuel =>
      if negb (instanceof_TransactionMode this) then
        TransactionMode fuel ThisFresh tiLevel readOnly deferrable
      else Some (construct tiLevel readOnly deferrable)
  end.

(** Lines 104-106: [this.begin = function (cap) {...}].  The call gets the
    captured variables and hands them back, with the string returned. *)
Definition this_begin (self : instance) (cap : value) : instance * string :=
  (self, if ToBoolean cap then capBegin self else begin self).

(** The query operation of the specification. *)
Definition query (self : instance) (cap : value) : string :=
  snd (this_begin self cap).

End TxMode.

(** ** Vocabulary of the properties *)

Module Vocabulary.
Import Js JsObject.

(** [needle] occurs in [hay] ([hay.indexOf(needle) !== -1]). *)
Fixpoint includes (needle hay : string) : bool :=
  String.prefix needle hay ||
  match hay with
  | String _ r => includes needle r
  | EmptyString => false
  end.

(** The number of positions of [hay] at which [needle] starts. *)
Fixpoint occurrences (needle hay : string) : nat :=
  (if String.prefix needle hay then 1 else 0) +
  match hay with
  | String _ r => occurrences needle r
  | EmptyString => 0
  end.

Fixpoint ends_with_space (s : string) : bool :=
  match s with
  | String c EmptyString => Ascii.eqb c " "
  | String _ r => ends_with_space r
  | EmptyString => false
  end.

(** A clause as it enters the command: nothing, or a space and its text. *)
Definition spaced (clause : option string) : string :=
  match clause with
  | Some c => " " +:+ c
  | None => ""
  end.

(** The SQL fragment of an isolation level, as the specification tabulates
    it. *)
Definition fragment (level : parsed) : option string :=
  match level with
  | PInt 1 => Some "serializable"
  | PInt 2 => Some "repeatable read"
  | PInt 3 => Some "read committed"
  | _ => None
  end.

(** The integer part of a finite Number, read off the decimal that
    [Number::toString] prints. *)
Definition truncate (x : number) : option Z :=
  match x with
  | NNaN | NInf _ => None
  | NZero _ => Some 0%Z
  | NFin neg s n =>
      let k := Z.of_nat (String.length (digits s)) in
      let m :=
        if (k <=? n)%Z then (Z.pos s * 10 ^ (n - k))%Z
        else (Z.pos s / 10 ^ (k - n))%Z in
      Some (if neg then (- m)%Z else m)
  end.

Definition is_symbol (p : prim) : bool :=
  match p with
  | PSymbol _ => true
  | _ => false
  end.

(** A record as a caller writes it, [{tiLevel: t, readOnly: r,
    deferrable: d}]. *)
Definition record (t r d : value) : value :=
  VObject false
    (λ P, Normal (if String.eqb P "tiLevel" then t
                  else if String.eqb P "readOnly" then r
                  else if String.eqb P "deferrable" then d
                  else undefined))
    (λ _, Normal (PString "[object Object]")).

(** An integer literal. *)
Definition int (z : Z) : value := VNum (number_of_Z z).

(** [Object.isFrozen] *)
Definition is_frozen (O : object) : Prop :=
  extensible O = false ∧
  ∀ P p, properties O !! P = Some p →
    configurable p = false ∧
    match p with
    | DataProperty _ writable _ _ => writable = false
    | AccessorProperty _ _ _ _ => True
    end.

(** Decimal digit strings and the integer they spell after [acc]. *)
Definition is_digit (c : ascii) : bool :=
  bool_decide (is_Some (digit_of 10 c)).

Fixpoint all_digits (s : string) : bool :=
  match s with
  | String c r => is_digit c && all_digits r
  | EmptyString => true
  end.

Fixpoint digits_value (acc : Z) (s : string) : Z :=
  match s with
  | String c r => digits_value (acc * 10 + (code c - 48)) r
  | EmptyString => acc
  end.

Definition nonzero_digit (c : ascii) : Prop :=
  c ∈ ["1"; "2"; "3"; "4"; "5"; "6"; "7"; "8"; "9"]%char.

(** [r] does not go on with a decimal digit. *)
Definition stops (r : string) : Prop :=
  match r with
  | String c _ => digit_of 10 c = None
  | EmptyString => True
  end.

(** White space only. *)
Fixpoint all_whitespace (s : string) : bool :=
  match s with
  | String c r => is_whitespace c && all_whitespace r
  | EmptyString => true
  end.

(** The clauses read back from a command. *)
Definition decode (command : string)
  : option string * option string * option string :=
  (if includes "serializable" command then Some "isolation level serializable"
   else if includes "repeatable read" command
        then Some "isolation level repeatable read"
   else if includes "read committed" command
        then Some "isolation level read committed"
   else None,
   if includes "read only" command then Some "read only"
   else if includes "read write" command then Some "read write"
   else None,
   if includes "not deferrable" command then Some "not deferrable"
   else if includes "deferrable" command then Some "deferrable"
   else None).

Definition is_lower (c : ascii) : bool :=
  ((97 <=? code c) && (code c <=? 122))%Z.
Definition is_upper (c : ascii) : bool :=
  ((65 <=? code c) && (code c <=? 90))%Z.

Fixpoint all_chars (f : ascii → bool) (s : string) : bool :=
  match s with
  | String c r => f c && all_chars f r
  | EmptyString => true
  end.

(** The clause that the comments of lines 9-19 document for each member of
    the registry. *)
Definition documented (member : string) : option string :=
  if String.eqb member "serializable" then Some "isolation level serializable"
  else if String.eqb member "repeatableRead"
       then Some "isolation level repeatable read"
  else if String.eqb member "readCommitted"
       then Some "isolation level read committed"
  else None.

End Vocabulary.

Import Js JsObject TxMode Vocabulary.

(** ** Strings *)

Lemma append_empty (s : string) : s +:+ "" = s.
Proof.
  induction s as [|c s IH]; [done|].
  change (String c (s +:+ "") = String c s). by f_equal.
Qed.

Lemma append_assoc (a b c : string) : (a +:+ b) +:+ c = a +:+ b +:+ c.
Proof.
  induction a as [|x a IH]; [done|].
  change (String x ((a +:+ b) +:+ c) = String x (a +:+ b +:+ c)). by f_equal.
Qed.

Lemma prefix_append (a b : string) : String.prefix a (a +:+ b) = true.
Proof.
  induction a as [|x a IH]; [by destruct b|].
  change (String.prefix (String x a) (String x (a +:+ b)) = true). simpl.
  destruct (ascii_dec x x); [exact IH|done].
Qed.

(** ** Strings of digits *)

Lemma digit_of_decimal c : is_digit c = true → digit_of 10 c = Some (code c - 48)%Z.
Proof.
  unfold is_digit, digit_of. intros H%bool_decide_eq_true.
  destruct ((48 <=? code c) && (code c <=? 57))%Z eqn:E; [|].
  - destruct (code c - 48 <? 10)%Z eqn:E2; [done|]. lia.
  - exfalso. destruct H as [d H]. revert H.
    destruct ((97 <=? code c) && (code c <=? 122))%Z eqn:E1.
    + destruct (code c - 87 <? 10)%Z eqn:E2; [lia|done].
    + destruct ((65 <=? code c) && (code c <=? 90))%Z eqn:E3; [|done].
      destruct (code c - 55 <? 10)%Z eqn:E2; [lia|done].
Qed.

Lemma read_digits_app (a r : string) (acc : Z) :
  all_digits a = true → stops r →
  read_digits 10 (Some acc) (a +:+ r) = (Some (digits_value acc a), r).
Proof.
  revert acc. induction a as [|c a IH]; simpl; intros acc Ha Hr.
  - destruct r as [|c r]; [done|]. simpl in *. by rewrite Hr.
  - apply andb_true_iff in Ha as [Hc Ha].
    rewrite (digit_of_decimal c Hc). simpl. by apply IH.
Qed.

Lemma digits_value_app (a b : string) (acc : Z) :
  digits_value acc (a +:+ b) = digits_value (digits_value acc a) b.
Proof. revert acc. induction a as [|c a IH]; simpl; intros; [done|apply IH]. Qed.

Lemma is_digit_code c : is_digit c = true → (0 ≤ code c - 48 ≤ 9)%Z.
Proof.
  intros H. pose proof (digit_of_decimal c H) as Hd. unfold digit_of in Hd.
  destruct ((48 <=? code c) && (code c <=? 57))%Z eqn:E; [lia|].
  destruct ((97 <=? code c) && (code c <=? 122))%Z eqn:E1.
  - destruct (code c - 87 <? 10)%Z eqn:E2; [lia|done].
  - destruct ((65 <=? code c) && (code c <=? 90))%Z eqn:E3; [|done].
    destruct (code c - 55 <? 10)%Z eqn:E2; [lia|done].
Qed.

(** Reading [b] after [acc] shifts [acc] by the length of [b]. *)
Lemma digits_value_shift (b : string) (acc : Z) :
  all_digits b = true →
  (digits_value acc b = acc * 10 ^ Z.of_nat (String.length b) + digits_value 0 b ∧
   0 ≤ digits_value 0 b < 10 ^ Z.of_nat (String.length b))%Z.
Proof.
  revert acc. induction b as [|c b IH]; intros acc Hb.
  - simpl. lia.
  - simpl in Hb. apply andb_true_iff in Hb as [Hc Hb].
    pose proof (is_digit_code c Hc) as Hcode.
    simpl digits_value.
    destruct (IH (acc * 10 + (code c - 48))%Z Hb) as [-> Hrange].
    destruct (IH (0 * 10 + (code c - 48))%Z Hb) as [-> _].
    change (String.length (String c b)) with (S (String.length b)).
    rewrite Nat2Z.inj_succ, Z.pow_succ_r by lia.
    split; nia.
Qed.

Lemma all_digits_zeros n : all_digits (zeros n) = true.
Proof. induction n; simpl; [done|]. by rewrite IHn. Qed.

Lemma length_zeros n : String.length (zeros n) = n.
Proof. induction n; simpl; [done|]. by rewrite IHn. Qed.

Lemma digits_value_zeros n acc :
  digits_value acc (zeros n) = (acc * 10 ^ Z.of_nat n)%Z.
Proof.
  revert acc. induction n as [|n IH]; intros acc.
  - simpl. lia.
  - simpl digits_value. rewrite IH, Nat2Z.inj_succ, Z.pow_succ_r by lia.
    change (code "0") with 48%Z. lia.
Qed.

Lemma all_digits_app a b :
  all_digits (a +:+ b) = all_digits a && all_digits b.
Proof. induction a as [|c a IH]; simpl; [done|]. by rewrite IH, andb_assoc. Qed.

Lemma length_app a b :
  String.length (a +:+ b) = (String.length a + String.length b)%nat.
Proof. induction a as [|c a IH]; simpl; [done|]. by rewrite IH. Qed.

(** The digits of a [uint], read back. *)
Lemma all_digits_uint d : all_digits (NilEmpty.string_of_uint d) = true.
Proof. induction d; simpl; try done. Qed.

Lemma of_uint_acc_value d acc :
  Z.pos (Pos.of_uint_acc d acc) =
  digits_value (Z.pos acc) (NilEmpty.string_of_uint d).
Proof.
  revert acc. induction d; intros acc; simpl Pos.of_uint_acc; simpl digits_value;
    rewrite ?IHd; try done; f_equal; vm_compute code; lia.
Qed.

Lemma of_uint_value d :
  Z.of_N (Pos.of_uint d) = digits_value 0 (NilEmpty.string_of_uint d).
Proof.
  induction d; simpl Pos.of_uint; simpl digits_value; try done;
    unfold Z.of_N; rewrite of_uint_acc_value; done.
Qed.

Lemma digits_value_digits s : digits_value 0 (digits s) = Z.pos s.
Proof.
  unfold digits. rewrite <- of_uint_value, Unsigned.of_to. done.
Qed.

Lemma nzhead_head d :
  match Decimal.nzhead d with
  | Decimal.D0 _ => False
  | _ => True
  end.
Proof. induction d; simpl; done. Qed.

Lemma to_uint_head s :
  match Pos.to_uint s with
  | Decimal.Nil | Decimal.D0 _ => False
  | _ => True
  end.
Proof.
  pose proof (Unsigned.to_of (Pos.to_uint s)) as H.
  rewrite Unsigned.of_to in H. simpl in H.
  pose proof (Unsigned.to_uint_nonzero s) as Hz.
  pose proof (nzhead_head (Pos.to_uint s)) as Hh.
  unfold Decimal.unorm in H.
  destruct (Decimal.nzhead (Pos.to_uint s)); rewrite H; done.
Qed.

(** The digits of a positive integer: a digit from 1 to 9, then digits. *)
Lemma digits_head s :
  ∃ c rest,
    digits s = String c rest ∧ nonzero_digit c ∧ all_digits rest = true.
Proof.
  unfold digits, nonzero_digit. pose proof (to_uint_head s) as H.
  destruct (Pos.to_uint s) as [|d|d|d|d|d|d|d|d|d|d]; try done; simpl;
    eexists _, _; (split; [reflexivity|]); (split; [|apply all_digits_uint]);
    set_solver.
Qed.

Lemma all_digits_digits s : all_digits (digits s) = true.
Proof. apply all_digits_uint. Qed.

(** [k] digits: [10^(k-1) <= s < 10^k]. *)
Lemma digits_length_bounds s :
  let k := Z.of_nat (String.length (digits s)) in
  (1 ≤ k ∧ 10 ^ (k - 1) ≤ Z.pos s < 10 ^ k)%Z.
Proof.
  intros k. subst k.
  pose proof (digits_value_digits s) as Hv.
  destruct (digits_head s) as (c & rest & Hd & Hc & Hrest).
  rewrite Hd in *. change (String.length (String c rest)) with (S (String.length rest)).
  rewrite Nat2Z.inj_succ.
  replace (Z.succ (Z.of_nat (String.length rest)) - 1)%Z
    with (Z.of_nat (String.length rest)) by lia.
  rewrite Z.pow_succ_r by lia.
  change (digits_value 0 (String c rest))
    with (digits_value (0 * 10 + (code c - 48)) rest) in Hv.
  destruct (digits_value_shift rest (0 * 10 + (code c - 48)) Hrest) as [Hs Hr].
  assert (1 ≤ code c - 48 ≤ 9)%Z as Hcode.
  { unfold nonzero_digit in Hc. set_unfold in Hc.
    destruct Hc as [->|[->|[->|[->|[->|[->|[->|[->|[->|[]]]]]]]]]]; vm_compute; split; discriminate. }
  rewrite Hs in Hv. nia.
Qed.

Lemma substring_all s : String.substring 0 (String.length s) s = s.
Proof. induction s as [|c s IH]; simpl; [done|]. by rewrite IH. Qed.

Lemma take_drop (n : nat) (s : string) :
  n ≤ String.length s →
  take n s +:+ drop n s = s ∧ String.length (take n s) = n.
Proof.
  unfold take, drop. revert s. induction n as [|n IH]; intros s Hn.
  - rewrite Nat.sub_0_r, substring_all. by destruct s.
  - destruct s as [|c s]; simpl in Hn; [lia|].
    destruct (IH s ltac:(lia)) as [Happ Hlen]. simpl.
    split; [|by rewrite Hlen].
    change (String c (substring 0 n s +:+
                      substring n (String.length s - n) s) = String c s).
    by rewrite Happ.
Qed.

Lemma all_digits_take_drop (n : nat) (s : string) :
  n ≤ String.length s → all_digits s = true →
  all_digits (take n s) = true ∧ all_digits (drop n s) = true.
Proof.
  intros Hn Hs. destruct (take_drop n s Hn) as [Happ _].
  rewrite <- Happ, all_digits_app in Hs. by apply andb_true_iff in Hs.
Qed.

Lemma read_digits_string (a r : string) :
  a ≠ "" → all_digits a = true → stops r →
  read_digits 10 None (a +:+ r) = (Some (digits_value 0 a), r).
Proof.
  destruct a as [|c a]; [done|]. intros _ Ha Hr. simpl in Ha.
  apply andb_true_iff in Ha as [Hc Ha]. simpl.
  rewrite (digit_of_decimal c Hc). simpl. by apply read_digits_app.
Qed.

(** [parseInt] of text that opens with digits, the first of them not zero:
    no white space, no sign, no [0x], and the digits up to the first
    character that is none. *)
Lemma parseInt_digits (c : ascii) (a r : string) :
  nonzero_digit c → all_digits a = true → stops r →
  parseInt_string (String c a +:+ r) = PInt (digits_value 0 (String c a)).
Proof.
  intros Hc Ha Hr.
  assert (all_digits (String c a) = true) as Hca.
  { simpl. rewrite Ha, andb_true_r. unfold nonzero_digit in Hc. set_unfold in Hc.
    destruct Hc as [->|[->|[->|[->|[->|[->|[->|[->|[->|[]]]]]]]]]]; reflexivity. }
  pose proof (read_digits_string (String c a) r ltac:(done) Hca Hr) as Hread.
  unfold nonzero_digit in Hc. set_unfold in Hc.
  destruct Hc as [->|[->|[->|[->|[->|[->|[->|[->|[->|[]]]]]]]]]];
    unfold parseInt_string; simpl trim_start; cbv beta iota zeta;
    (match type of Hread with
     | read_digits _ _ (String ?ch ?x +:+ ?y) = _ =>
         change (String ch x +:+ y) with (String ch (x +:+ y)) in Hread
     end);
    rewrite Hread; f_equal; apply Z.mul_1_l.
Qed.

(** [parseInt] of the first [m] digits of [s], followed by text that does
    not go on with a digit: [s] without its last [k - m] digits. *)
Lemma parseInt_take (s : positive) (m : nat) (r : string) :
  let k := String.length (digits s) in
  (1 ≤ m ≤ k)%nat → stops r →
  parseInt_string (take m (digits s) +:+ r) =
  PInt (Z.pos s / 10 ^ (Z.of_nat k - Z.of_nat m)).
Proof.
  intros k [Hm Hle] Hr. subst k. set (ds := digits s) in *.
  pose proof (digits_value_digits s) as Hv. fold ds in Hv.
  pose proof (all_digits_digits s) as Hall. fold ds in Hall.
  destruct (digits_head s) as (c & rest & Hd & Hc & Hrest). fold ds in Hd.
  destruct (take_drop _ _ Hle) as [Happ Hlen].
  destruct (all_digits_take_drop _ _ Hle Hall) as [Htake Hdrop].
  assert (∃ rest', take m ds = String c rest') as [rest' Ht].
  { rewrite Hd. unfold take. destruct m as [|m]; [lia|]. simpl. eauto. }
  rewrite Ht in *. simpl in Htake. apply andb_true_iff in Htake as [_ Htake].
  rewrite parseInt_digits by done. f_equal.
  pose proof (digits_value_app (String c rest') (drop m ds) 0) as Hsplit.
  rewrite Happ, Hv in Hsplit.
  destruct (digits_value_shift (drop m ds)
              (digits_value 0 (String c rest')) Hdrop) as [Hshift Hrange].
  rewrite Hshift in Hsplit.
  assert (String.length (drop m ds) = (String.length ds - m)%nat) as Hdl.
  { rewrite <- Happ at 2. rewrite length_app, Hlen. lia. }
  rewrite Hdl in *.
  replace (Z.of_nat (String.length ds - m))
    with (Z.of_nat (String.length ds) - Z.of_nat m)%Z in * by lia.
  rewrite Hsplit.
  apply Z.div_unique with (r := digits_value 0 (drop m ds)); lia.
Qed.

Lemma take_all (s : string) : take (String.length s) s = s.
Proof. apply substring_all. Qed.

(** A Number from 1 up to [10^21] prints without exponent, and [parseInt]
    reads its integer part back. *)
Lemma parseInt_decimal_notation (s : positive) (n : Z) :
  (0 < n ≤ 21)%Z →
  Some (parseInt_string (Number_toString (NFin false s n))) =
  PInt <$> truncate (NFin false s n).
Proof.
  intros Hn. unfold Number_toString, truncate.
  set (ds := digits s). set (k := Z.of_nat (String.length ds)).
  change ("" +:+ ?x) with x. simpl fmap. f_equal.
  pose proof (digits_length_bounds s) as (Hk & _). fold ds k in Hk.
  destruct (k <=? n)%Z eqn:Hkn.
  - (* digits, then zeros *)
    replace (n <=? 21)%Z with true by lia. simpl andb. cbv iota.
    pose proof (digits_value_digits s) as Hv. fold ds in Hv.
    destruct (digits_head s) as (c & rest & Hd & Hc & Hrest). fold ds in Hd.
    rewrite <- (append_empty (ds +:+ zeros _)). rewrite Hd.
    change (String c rest +:+ ?x) with (String c (rest +:+ x)) at 1.
    rewrite parseInt_digits; [|done| |done].
    + f_equal.
      change (String c (rest +:+ ?x)) with (String c rest +:+ x).
      rewrite <- Hd, digits_value_app, digits_value_zeros, Hv.
      f_equal. f_equal. lia.
    + by rewrite all_digits_app, Hrest, all_digits_zeros.
  - (* the first [n] digits, a point, the rest *)
    replace ((0 <? n) && (n <=? 21))%Z with true by lia. simpl andb. cbv iota.
    pose proof (parseInt_take s (Z.to_nat n)
                  ("." +:+ drop (Z.to_nat n) ds)) as Hp.
    simpl in Hp. fold ds in Hp. rewrite Hp by (done || lia).
    do 3 f_equal. lia.
Qed.

(** A Number from [10^-6] up to 1 prints as ["0."] and digits. *)
Lemma parseInt_fraction (s : positive) (n : Z) :
  (-6 < n ≤ 0)%Z →
  parseInt_string (Number_toString (NFin false s n)) = PInt 0.
Proof.
  intros Hn. unfold Number_toString.
  pose proof (digits_length_bounds s) as (Hk & _).
  replace (_ <=? n)%Z with false by lia.
  replace (0 <? n)%Z with false by lia.
  replace ((-6 <? n) && (n <=? 0))%Z with true by lia.
  reflexivity.
Qed.


Lemma truncate_decimal_range (s : positive) (n z : Z) :
  truncate (NFin false s n) = Some z → (1 ≤ z < 10 ^ 21)%Z → (0 < n ≤ 21)%Z.
Proof.
  unfold truncate.
  pose proof (digits_length_bounds s) as (Hk & Hlo & Hhi).
  set (k := Z.of_nat (String.length (digits s))) in *.
  intros [= <-] [H1 H21].
  assert (n ≤ 0 ∨ 0 < n)%Z as [Hn|Hn] by lia.
  { (* below 1 *)
    exfalso. replace (k <=? n)%Z with false in H1 by lia.
    assert (10 ^ k ≤ 10 ^ (k - n))%Z by (apply Z.pow_le_mono_r; lia).
    rewrite Z.div_small in H1 by lia. lia. }
  split; [done|].
  assert (10 ^ (n - 1) < 10 ^ 21)%Z as Hpow; [|apply Z.pow_lt_mono_r_iff in Hpow; lia].
  eapply Z.le_lt_trans; [|exact H21].
  destruct (k <=? n)%Z eqn:Hkn.
  - replace (n - 1)%Z with ((k - 1) + (n - k))%Z by lia.
    rewrite Z.pow_add_r by lia.
    apply Z.mul_le_mono_nonneg_r; [apply Z.pow_nonneg|]; lia.
  - apply Z.div_le_lower_bound; [apply Z.pow_pos_nonneg; lia|].
    rewrite <- Z.pow_add_r by lia.
    replace (k - n + (n - 1))%Z with (k - 1)%Z by lia. done.
Qed.


(** ** Line 67: the normalisation of [tiLevel] *)

(** Line 67 on a Number from 1 up to [10^21]: integer truncation. *)
Lemma normalize_truncates (x : number) (z : Z) :
  number_positive x = true → truncate x = Some z → (1 ≤ z < 10 ^ 21)%Z →
  normalize (VNum x) = Normal (PInt z).
Proof.
  destruct x as [| [] | [] | [] s n]; try done. intros _ Hz Hrange.
  pose proof (truncate_decimal_range s n z Hz Hrange) as Hn.
  pose proof (parseInt_decimal_notation s n Hn) as Hp.
  rewrite Hz in Hp. injection Hp as Hp.
  unfold normalize, gt0, parseInt, ToString. simpl. by rewrite Hp.
Qed.

Lemma normalize_fraction (s : positive) (n : Z) :
  (-6 < n ≤ 0)%Z → normalize (VNum (NFin false s n)) = Normal (PInt 0).
Proof.
  intros Hn.
  change (normalize (VNum (NFin false s n)))
    with (Normal (parseInt_string (Number_toString (NFin false s n)))).
  by rewrite parseInt_fraction.
Qed.


Lemma normalize_nonpositive (x : number) :
  number_positive x = false → normalize (VNum x) = Normal (PInt 0).
Proof. intros H. unfold normalize, gt0. simpl. by rewrite H. Qed.

(** Whatever is not positive under [>], and does not throw there, counts
    as level 0. *)
Lemma normalize_not_positive (v : value) :
  gt0 v = Normal false → normalize v = Normal (PInt 0).
Proof. intros H. unfold normalize. by rewrite H. Qed.

Lemma normalize_prim (p : prim) :
  is_symbol p = false → ∃ level, normalize (VPrim p) = Normal level.
Proof.
  intros Hp. unfold normalize, gt0, parseInt, ToString. simpl.
  destruct p; try done; simpl; try (eexists; reflexivity).
  - destruct b; simpl; eauto.
  - destruct (number_positive x); simpl; eauto.
  - destruct (literal_positive _); simpl; eauto.
  - destruct (0 <? z)%Z; simpl; eauto.
Qed.

Lemma is_record_prim (p : prim) : is_record (VPrim p) = false.
Proof.
  unfold is_record. destruct p; simpl; rewrite ?andb_false_r; done.
Qed.

Lemma build_completes (tiLevel readOnly deferrable : value) (level : parsed) :
  normalize tiLevel = Normal level →
  ∃ i, build tiLevel readOnly deferrable = Normal i.
Proof. intros H. unfold build. rewrite H. simpl. eauto. Qed.

(** ** The three clauses *)

(** The four values the local [isolationLevel] can take. *)
Lemma isolation_clause_cases (tiLevel : parsed) :
  (isolation_clause tiLevel = Some "isolation level serializable" ∧
   tiLevel = PInt 1) ∨
  (isolation_clause tiLevel = Some "isolation level repeatable read" ∧
   tiLevel = PInt 2) ∨
  (isolation_clause tiLevel = Some "isolation level read committed" ∧
   tiLevel = PInt 3) ∨
  (isolation_clause tiLevel = None ∧
   tiLevel ≠ PInt 1 ∧ tiLevel ≠ PInt 2 ∧ tiLevel ≠ PInt 3).
Proof.
  destruct tiLevel as [|z]; simpl.
  - right; right; right. repeat split; discriminate.
  - destruct (0 <? z)%Z eqn:H0; simpl.
    + destruct (z <? 4)%Z eqn:H4.
      * apply Z.ltb_lt in H0, H4.
        assert (z = 1 ∨ z = 2 ∨ z = 3)%Z as [->|[->| ->]] by lia; auto 6.
      * apply Z.ltb_ge in H4.
        right; right; right. repeat split; intros [= ->]; lia.
    + apply Z.ltb_ge in H0.
      right; right; right. repeat split; intros [= ->]; lia.
Qed.

Lemma access_clause_cases (readOnly : value) :
  (access_clause readOnly = Some "read only" ∧ ToBoolean readOnly = true) ∨
  (access_clause readOnly = Some "read write" ∧
   ToBoolean readOnly = false ∧ is_undefined readOnly = false) ∨
  (access_clause readOnly = None ∧ is_undefined readOnly = true).
Proof.
  unfold access_clause.
  destruct (ToBoolean readOnly); [auto|].
  destruct (is_undefined readOnly); simpl; auto.
Qed.

Lemma deferrable_clause_cases (deferrable : value) :
  (deferrable_clause deferrable = Some "deferrable" ∧
   ToBoolean deferrable = true) ∨
  (deferrable_clause deferrable = Some "not deferrable" ∧
   ToBoolean deferrable = false ∧ is_undefined deferrable = false) ∨
  (deferrable_clause deferrable = None ∧ is_undefined deferrable = true).
Proof.
  unfold deferrable_clause.
  destruct (ToBoolean deferrable); [auto|].
  destruct (is_undefined deferrable); simpl; auto.
Qed.

Lemma is_undefined_spec (v : value) : is_undefined v = true ↔ v = undefined.
Proof.
  split; [|intros ->; reflexivity].
  destruct v as [[]|]; simpl; intros; done.
Qed.

Lemma is_undefined_false (v : value) : is_undefined v = false ↔ v ≠ undefined.
Proof.
  rewrite <- is_undefined_spec. destruct (is_undefined v); split; congruence.
Qed.

Lemma undefined_falsy (v : value) : is_undefined v = true → ToBoolean v = false.
Proof. intros ->%is_undefined_spec. reflexivity. Qed.

(** The access-mode clause follows the truthiness of [readOnly]. *)
Lemma access_clause_spec (readOnly : value) :
  (access_clause readOnly = Some "read only" ↔ ToBoolean readOnly = true) ∧
  (access_clause readOnly = Some "read write" ↔
     ToBoolean readOnly = false ∧ readOnly ≠ undefined) ∧
  (access_clause readOnly = None ↔ readOnly = undefined).
Proof.
  rewrite <- is_undefined_false, <- is_undefined_spec.
  pose proof (undefined_falsy readOnly).
  destruct (access_clause_cases readOnly) as [[-> Hr]|[[-> [Hr Hu]]|[-> Hu]]];
    repeat split; intuition congruence.
Qed.

Lemma deferrable_clause_spec (deferrable : value) :
  (deferrable_clause deferrable = Some "deferrable" ↔
     ToBoolean deferrable = true) ∧
  (deferrable_clause deferrable = Some "not deferrable" ↔
     ToBoolean deferrable = false ∧ deferrable ≠ undefined) ∧
  (deferrable_clause deferrable = None ↔ deferrable = undefined).
Proof.
  rewrite <- is_undefined_false, <- is_undefined_spec.
  pose proof (undefined_falsy deferrable).
  destruct (deferrable_clause_cases deferrable)
    as [[-> Hr]|[[-> [Hr Hu]]|[-> Hu]]];
    repeat split; intuition congruence.
Qed.

(** ** The command of a constructed instance *)

Section Build.

Variables (tiLevel readOnly deferrable : value) (i : instance).
Hypothesis Hbuild : build tiLevel readOnly deferrable = Normal i.

(** What a successful [build] leaves in its instance. *)
Lemma build_Normal :
  ∃ level,
    normalize tiLevel = Normal level ∧
    begin i =
      add_clause
        (add_clause (add_clause "begin" (isolation_clause level))
           (access_clause readOnly))
        (deferrable_clause deferrable) ∧
    capBegin i = toUpperCase (begin i).
Proof.
  revert Hbuild. unfold build.
  destruct (normalize tiLevel) as [level|e]; simpl; [|done].
  intros [= <-]. eauto.
Qed.

End Build.

Lemma construct_Normal (tiLevel readOnly deferrable : value) (i : instance) :
  construct tiLevel readOnly deferrable = Normal i →
  ∃ t r d,
    unpack tiLevel readOnly deferrable = Normal (t, r, d) ∧
    build t r d = Normal i.
Proof.
  unfold construct.
  destruct (unpack tiLevel readOnly deferrable) as [[[t r] d]|e]; simpl; [|done].
  eauto.
Qed.

(** Splits a successful [build] into the 36 commands it can have produced,
    each with what it says about the parameters. *)
Ltac command_cases H level r d :=
  apply build_Normal in H as (level & Hlevel & Hbegin & Hcap);
  destruct (isolation_clause_cases level)
    as [[Hiso Hl]|[[Hiso Hl]|[[Hiso Hl]|[Hiso Hl]]]];
  destruct (access_clause_cases r) as [[Hacc Hr]|[[Hacc Hr]|[Hacc Hr]]];
  destruct (deferrable_clause_cases d) as [[Hdef Hd]|[[Hdef Hd]|[Hdef Hd]]];
  rewrite Hiso, Hacc, Hdef in Hbegin;
  match type of Hbegin with
  | ?lhs = ?rhs =>
      let command := eval vm_compute in rhs in
      change (lhs = command) in Hbegin
  end.

(** Evaluates every [includes] of the goal on the command found. *)
Ltac search_command :=
  repeat match goal with
  | |- context [includes ?needle ?hay] =>
      let found := eval vm_compute in (includes needle hay) in
      change (includes needle hay) with found
  end.

(** The assembly of lines 90-100, on the parameters as they stand after
    lines 59-63. *)
Lemma build_assembly (tiLevel readOnly deferrable : value) (i : instance) :
  build tiLevel readOnly deferrable = Normal i →
  ∃ level,
    normalize tiLevel = Normal level ∧
    begin i =
      "begin" +:+ spaced (isolation_clause level)
              +:+ spaced (access_clause readOnly)
              +:+ spaced (deferrable_clause deferrable) ∧
    includes "  " (begin i) = false ∧
    ends_with_space (begin i) = false.
Proof.
  intros H.
  command_cases H level readOnly deferrable;
    (exists level; split; [assumption|]); rewrite Hbegin, Hiso, Hacc, Hdef;
    repeat split; reflexivity.
Qed.

(** The isolation clause of lines 69-72 and 90-92, by the level line 67
    computed. *)
Lemma build_isolation (tiLevel readOnly deferrable : value) (i : instance) :
  build tiLevel readOnly deferrable = Normal i →
  ∃ level,
    normalize tiLevel = Normal level ∧
    match fragment level with
    | Some frag =>
        begin i =
          "begin isolation level " +:+ frag
            +:+ spaced (access_clause readOnly)
            +:+ spaced (deferrable_clause deferrable) ∧
        occurrences "isolation level" (begin i) = 1
    | None => includes "isolation level" (begin i) = false
    end.
Proof.
  intros H.
  command_cases H level readOnly deferrable; exists level;
    (split; [assumption|]);
    rewrite ?Hl, ?Hacc, ?Hdef, Hbegin; try (split; reflexivity);
    (destruct level as [|[|[[p|p|]|[p|p|]|]|p]]; try reflexivity; exfalso;
     destruct Hl as (? & ? & ?); congruence).
Qed.

(** ** Records *)

(** The test of line 59 holds of the objects that are not callable: what
    [typeof] calls ['object'], [null] apart. *)
Lemma is_record_spec (v : value) :
  is_record v = true ↔ typeof v = "object" ∧ v ≠ null.
Proof.
  unfold is_record. rewrite andb_true_iff, String.eqb_eq.
  destruct v as [[]|[]]; simpl; intuition (try discriminate).
Qed.

Lemma is_record_object (v : value) :
  is_record v = true ↔ ∃ get toPrimitive, v = VObject false get toPrimitive.
Proof.
  split.
  - intros [Ht Hn]%is_record_spec.
    destruct v as [[]|[]]; simpl in *; try discriminate; eauto; done.
  - intros (get & toPrimitive & ->). reflexivity.
Qed.

(** ** Frozen objects *)

Lemma freeze_is_frozen (O : object) : is_frozen (freeze O).
Proof.
  split; [reflexivity|]. intros P p. simpl. rewrite lookup_fmap.
  destruct (properties O !! P) as [[v w e c|g s e c]|]; simpl; [| |done];
    intros [= <-]; done.
Qed.

Lemma with_properties_same (O : object) : with_properties O (properties O) = O.
Proof. by destruct O. Qed.

(** On a frozen object a permitted descriptor restates the property. *)
Lemma frozen_updated (p : property) (d : descriptor) :
  configurable p = false →
  match p with
  | DataProperty _ writable _ _ => writable = false
  | AccessorProperty _ _ _ _ => True
  end →
  permitted p d = true → updated p d = p.
Proof.
  unfold permitted, updated, absent_or, SameValue.
  destruct d as [dv dw dg ds de dc], p as [v w e c|g s e c]; simpl;
    intros -> Hw; [subst w|]; simpl;
    rewrite !andb_true_iff; intros Hp; destruct_and!.
  - destruct (IsAccessorDescriptor _); [done|].
    destruct dv, dw as [[]|], de, dc as [[]|]; simpl in *;
      repeat case_bool_decide; simplify_eq; try done;
      by repeat match goal with H : Bool.eqb _ _ = true |- _ =>
                  apply Bool.eqb_prop in H; subst end.
  - destruct (IsDataDescriptor _); [done|].
    destruct dg, ds, de, dc as [[]|]; simpl in *;
      repeat case_bool_decide; simplify_eq; try done;
      by repeat match goal with H : Bool.eqb _ _ = true |- _ =>
                  apply Bool.eqb_prop in H; subst end.
Qed.

Section Frozen.

Variable O : object.
Hypothesis HO : is_frozen O.

(** No attempt changes a frozen object. *)
Lemma frozen_attempt (a : alteration) : fst (attempt O a) = O.
Proof.
  destruct HO as [Hext Hprops]. destruct a as [P V|P|P d|V|]; simpl.
  - unfold Set_. destruct (properties O !! P) as [[v w e c|g s e c]|] eqn:HP.
    + destruct (Hprops _ _ HP) as [_ ->]. reflexivity.
    + reflexivity.
    + rewrite Hext. reflexivity.
  - unfold Delete. destruct (properties O !! P) as [p|] eqn:HP; [|done].
    destruct (Hprops _ _ HP) as [-> _]. reflexivity.
  - unfold DefineOwnProperty.
    destruct (IsAccessorDescriptor d && IsDataDescriptor d); [done|].
    destruct (properties O !! P) as [p|] eqn:HP.
    + destruct (permitted p d) eqn:Hp; [|done]. simpl.
      destruct (Hprops _ _ HP) as [Hc Hw].
      rewrite (frozen_updated p d Hc Hw Hp), insert_id by done.
      apply with_properties_same.
    + rewrite Hext. reflexivity.
  - unfold SetPrototypeOf. case_bool_decide; [done|]. by rewrite Hext.
  - unfold PreventExtensions. destruct O; simpl in *. by subst.
Qed.

(** Nor does any sequence of attempts. *)
Lemma frozen_attempts (l : list alteration) :
  foldl (λ O a, fst (attempt O a)) O l = O.
Proof.
  induction l as [|a l IH]; simpl; [done|]. by rewrite frozen_attempt.
Qed.

End Frozen.

(** ** The properties of the specification *)

(** C1 as stated fails: the Number [1e21] is 4 or greater, yet the command
    carries an isolation clause.  The Number prints as ["1e+21"], of which
    [parseInt] reads the leading [1]. *)
Lemma C1_counterexample :
  number_positive (NFin false 1 22) = true ∧
  truncate (NFin false 1 22) = Some (10 ^ 21)%Z ∧
  Number_toString (NFin false 1 22) = "1e+21" ∧
  normalize (VNum (NFin false 1 22)) = Normal (PInt 1) ∧
  construct (VNum (NFin false 1 22)) undefined undefined =
    Normal {| begin := "begin isolation level serializable";
              capBegin := "BEGIN ISOLATION LEVEL SERIALIZABLE" |} ∧
  ¬ (∀ (x : number) (z : Z) (i : instance),
       truncate x = Some z → (4 ≤ z)%Z →
       construct (VNum x) undefined undefined = Normal i →
       includes "isolation level" (begin i) = false).
Proof.
  assert (truncate (NFin false 1 22) = Some (10 ^ 21)%Z) as Htruncate
    by (vm_compute; reflexivity).
  assert (construct (VNum (NFin false 1 22)) undefined undefined =
            Normal {| begin := "begin isolation level serializable";
                      capBegin := "BEGIN ISOLATION LEVEL SERIALIZABLE" |})
    as Hconstruct by (vm_compute; reflexivity).
  split; [vm_compute; reflexivity|].
  split; [exact Htruncate|].
  split; [vm_compute; reflexivity|].
  split; [vm_compute; reflexivity|].
  split; [exact Hconstruct|].
  intros H.
  specialize (H _ _ _ Htruncate ltac:(vm_compute; discriminate) Hconstruct).
  vm_compute in H. discriminate H.
Qed.

(** C1, amended. Whenever construction completes, with [level] what line
    67 makes of [tiLevel]: if [level] is 1, 2 or 3 the command is
    ["begin isolation level "] and the mapped fragment, then the other
    clauses, and ["isolation level"] occurs in it exactly once; for every
    other [level] the command has no ["isolation level"] in it.  Line 67
    turns an unset [tiLevel], and a Number that is zero, negative or [NaN],
    into 0; a Number from 1 up to, not including, [10^21] into its integer
    part (so from 4 on no clause appears); and any truthy value for which
    [tiLevel > 0] is false, a string that is no numeric literal among them,
    into 0 without an error. *)
Theorem C1_isolation_clause :
  (∀ (tiLevel readOnly deferrable : value) (i : instance),
     construct tiLevel readOnly deferrable = Normal i →
     ∃ t r d level,
       unpack tiLevel readOnly deferrable = Normal (t, r, d) ∧
       normalize t = Normal level ∧
       match fragment level with
       | Some frag =>
           begin i =
             "begin isolation level " +:+ frag
               +:+ spaced (access_clause r) +:+ spaced (deferrable_clause d) ∧
           occurrences "isolation level" (begin i) = 1
       | None => includes "isolation level" (begin i) = false
       end) ∧
  (∀ (p : prim) (readOnly deferrable : value) (level : parsed),
     normalize (VPrim p) = Normal level →
     ∃ i, construct (VPrim p) readOnly deferrable = Normal i ∧
          match fragment level with
          | Some frag =>
              String.prefix ("begin isolation level " +:+ frag) (begin i) = true ∧
              occurrences "isolation level" (begin i) = 1
          | None => includes "isolation level" (begin i) = false
          end) ∧
  normalize undefined = Normal (PInt 0) ∧
  (∀ x : number,
     number_positive x = false → normalize (VNum x) = Normal (PInt 0)) ∧
  (∀ (x : number) (z : Z),
     number_positive x = true → truncate x = Some z → (1 ≤ z < 10 ^ 21)%Z →
     normalize (VNum x) = Normal (PInt z)) ∧
  (∀ v : value,
     ToBoolean v = true → gt0 v = Normal false →
     normalize v = Normal (PInt 0)) ∧
  (∀ s : string,
     StringToNumber s = LNaN → normalize (VStr s) = Normal (PInt 0)).
Proof.
  split_and!.
  - intros tiLevel readOnly deferrable i H.
    apply construct_Normal in H as (t & r & d & Hunpack & Hbuild).
    apply build_isolation in Hbuild as (level & Hlevel & Hclause).
    exists t, r, d, level. auto.
  - intros p readOnly deferrable level Hlevel.
    destruct (build_completes (VPrim p) readOnly deferrable level Hlevel)
      as [i Hi].
    exists i. unfold construct, unpack. rewrite is_record_prim.
    split; [exact Hi|].
    apply build_isolation in Hi as (level' & Hlevel' & Hclause).
    assert (level' = level) as -> by congruence.
    destruct (fragment level) as [frag|]; [|exact Hclause].
    destruct Hclause as [Hbegin Hcount]. split; [|exact Hcount].
    rewrite Hbegin, <- append_assoc. apply prefix_append.
  - reflexivity.
  - apply normalize_nonpositive.
  - apply normalize_truncates.
  - intros v _. apply normalize_not_positive.
  - intros s Hs. apply normalize_not_positive.
    unfold gt0. simpl. by rewrite Hs.
Qed.

Lemma C1_isolation_clause_witness :
  normalize (int 999) = Normal (PInt 999).
Proof.
  apply (proj1 (proj2 (proj2 (proj2 (proj2 C1_isolation_clause))))
           (number_of_Z 999) 999%Z); [reflexivity|reflexivity|].
  split; [lia|]. vm_compute. reflexivity.
Defined.

(** C2 as stated fails: [readOnly = null] is not [false], yet the
    access-mode clause is ["read write"]; [readOnly = 1] is not [true], yet
    the clause is ["read only"]. *)
Lemma C2_counterexample :
  null ≠ VBool false ∧
  access_clause null = Some "read write" ∧
  construct undefined null undefined =
    Normal {| begin := "begin read write"; capBegin := "BEGIN READ WRITE" |} ∧
  int 1 ≠ VBool true ∧
  access_clause (int 1) = Some "read only" ∧
  construct undefined (int 1) undefined =
    Normal {| begin := "begin read only"; capBegin := "BEGIN READ ONLY" |} ∧
  ¬ (∀ readOnly : value,
       access_clause readOnly = Some "read write" ↔ readOnly = VBool false).
Proof.
  split_and!; try discriminate; try reflexivity.
  intros H. by specialize (proj1 (H null) eq_refl).
Qed.

(** C2, amended. For every constructed builder, with [readOnly] the
    parameter as it stands after lines 59-63: the access-mode clause is
    ["read only"] exactly when [readOnly] is truthy ([true] among them),
    ["read write"] exactly when [readOnly] is falsy and not [undefined]
    ([false] among them, and also [null], [0], [NaN] and the empty string),
    and absent exactly when [readOnly] is [undefined]; the clause is in the
    command exactly when it is set. *)
Theorem C2_access_mode (tiLevel readOnly deferrable : value) (i : instance) :
  construct tiLevel readOnly deferrable = Normal i →
  ∃ t r d,
    unpack tiLevel readOnly deferrable = Normal (t, r, d) ∧
    (access_clause r = Some "read only" ↔ ToBoolean r = true) ∧
    (access_clause r = Some "read write" ↔
       ToBoolean r = false ∧ r ≠ undefined) ∧
    (access_clause r = None ↔ r = undefined) ∧
    (r = VBool true → access_clause r = Some "read only") ∧
    (r = VBool false → access_clause r = Some "read write") ∧
    (includes "read only" (begin i) = true ↔
       access_clause r = Some "read only") ∧
    (includes "read write" (begin i) = true ↔
       access_clause r = Some "read write").
Proof.
  intros H. apply construct_Normal in H as (t & r & d & Hunpack & Hbuild).
  exists t, r, d. split; [assumption|].
  destruct (access_clause_spec r) as (Htrue & Hfalse & Hunset).
  repeat split; try tauto; try (intros ->; reflexivity);
    command_cases Hbuild level r d; rewrite Hbegin, Hacc; search_command;
    congruence.
Qed.

Lemma C2_access_mode_witness :
  ∃ t r d,
    unpack undefined (VBool false) undefined = Normal (t, r, d) ∧
    (access_clause r = Some "read only" ↔ ToBoolean r = true) ∧
    (access_clause r = Some "read write" ↔
       ToBoolean r = false ∧ r ≠ undefined) ∧
    (access_clause r = None ↔ r = undefined) ∧
    (r = VBool true → access_clause r = Some "read only") ∧
    (r = VBool false → access_clause r = Some "read write") ∧
    (includes "read only" "begin read write" = true ↔
       access_clause r = Some "read only") ∧
    (includes "read write" "begin read write" = true ↔
       access_clause r = Some "read write").
Proof.
  apply (C2_access_mode undefined (VBool false) undefined
           {| begin := "begin read write"; capBegin := "BEGIN READ WRITE" |}).
  reflexivity.
Defined.

(** C3 as stated fails: [deferrable = null] is not [false], yet the clause
    is ["not deferrable"]; [deferrable = 1] is not [true], yet the clause is
    ["deferrable"]. *)
Lemma C3_counterexample :
  null ≠ VBool false ∧
  deferrable_clause null = Some "not deferrable" ∧
  construct undefined undefined null =
    Normal {| begin := "begin not deferrable";
              capBegin := "BEGIN NOT DEFERRABLE" |} ∧
  int 1 ≠ VBool true ∧
  deferrable_clause (int 1) = Some "deferrable" ∧
  construct undefined undefined (int 1) =
    Normal {| begin := "begin deferrable"; capBegin := "BEGIN DEFERRABLE" |} ∧
  ¬ (∀ deferrable : value,
       deferrable_clause deferrable = Some "not deferrable" ↔
       deferrable = VBool false).
Proof.
  split_and!; try discriminate; try reflexivity.
  intros H. by specialize (proj1 (H null) eq_refl).
Qed.

(** C3, amended. For every constructed builder, with [deferrable] the
    parameter as it stands after lines 59-63: the deferrable clause is
    ["deferrable"] exactly when [deferrable] is truthy ([true] among them),
    ["not deferrable"] exactly when it is falsy and not [undefined] ([false]
    among them, and also [null], [0], [NaN] and the empty string), and
    absent exactly when it is [undefined]; when [deferrable] is [true] (or
    truthy) the command contains ["deferrable"] and not ["not deferrable"],
    when the clause is ["not deferrable"] the command contains it, and when
    the clause is absent the command contains neither. *)
Theorem C3_deferrable_mode
    (tiLevel readOnly deferrable : value) (i : instance) :
  construct tiLevel readOnly deferrable = Normal i →
  ∃ t r d,
    unpack tiLevel readOnly deferrable = Normal (t, r, d) ∧
    (deferrable_clause d = Some "deferrable" ↔ ToBoolean d = true) ∧
    (deferrable_clause d = Some "not deferrable" ↔
       ToBoolean d = false ∧ d ≠ undefined) ∧
    (deferrable_clause d = None ↔ d = undefined) ∧
    (d = VBool true → deferrable_clause d = Some "deferrable") ∧
    (d = VBool false → deferrable_clause d = Some "not deferrable") ∧
    (deferrable_clause d = Some "deferrable" →
       includes "deferrable" (begin i) = true ∧
       includes "not deferrable" (begin i) = false) ∧
    (deferrable_clause d = Some "not deferrable" →
       includes "not deferrable" (begin i) = true) ∧
    (deferrable_clause d = None → includes "deferrable" (begin i) = false).
Proof.
  intros H. apply construct_Normal in H as (t & r & d & Hunpack & Hbuild).
  exists t, r, d. split; [assumption|].
  destruct (deferrable_clause_spec d) as (Htrue & Hfalse & Hunset).
  repeat split; try tauto; try (intros ->; reflexivity);
    command_cases Hbuild level r d; rewrite Hbegin, ?Hdef; search_command;
    intuition congruence.
Qed.

Lemma C3_deferrable_mode_witness :
  ∃ t r d,
    unpack undefined undefined (VBool true) = Normal (t, r, d) ∧
    (deferrable_clause d = Some "deferrable" ↔ ToBoolean d = true) ∧
    (deferrable_clause d = Some "not deferrable" ↔
       ToBoolean d = false ∧ d ≠ undefined) ∧
    (deferrable_clause d = None ↔ d = undefined) ∧
    (d = VBool true → deferrable_clause d = Some "deferrable") ∧
    (d = VBool false → deferrable_clause d = Some "not deferrable") ∧
    (deferrable_clause d = Some "deferrable" →
       includes "deferrable" "begin deferrable" = true ∧
       includes "not deferrable" "begin deferrable" = false) ∧
    (deferrable_clause d = Some "not deferrable" →
       includes "not deferrable" "begin deferrable" = true) ∧
    (deferrable_clause d = None → includes "deferrable" "begin deferrable" = false).
Proof.
  apply (C3_deferrable_mode undefined undefined (VBool true)
           {| begin := "begin deferrable"; capBegin := "BEGIN DEFERRABLE" |}).
  reflexivity.
Defined.

(** C4. Whatever the arguments, when construction completes the lower-case
    command is ["begin"] followed by the isolation clause, the access-mode
    clause and the deferrable clause in that order, each present clause after
    exactly one space and an absent one adding no character; the command has
    no two consecutive spaces and does not end in a space. *)
Theorem C4_assembly_order (tiLevel readOnly deferrable : value) (i : instance) :
  construct tiLevel readOnly deferrable = Normal i →
  ∃ t r d level,
    unpack tiLevel readOnly deferrable = Normal (t, r, d) ∧
    normalize t = Normal level ∧
    begin i =
      "begin" +:+ spaced (isolation_clause level)
              +:+ spaced (access_clause r)
              +:+ spaced (deferrable_clause d) ∧
    spaced None = "" ∧
    includes "  " (begin i) = false ∧
    ends_with_space (begin i) = false.
Proof.
  intros H. apply construct_Normal in H as (t & r & d & Hunpack & Hbuild).
  apply build_assembly in Hbuild as (level & Hlevel & Hbegin & Hdouble & Hend).
  exists t, r, d, level. auto 7.
Qed.

Lemma C4_assembly_order_witness :
  ∃ t r d level,
    unpack (int 2) (VBool true) undefined = Normal (t, r, d) ∧
    normalize t = Normal level ∧
    "begin isolation level repeatable read read only" =
      "begin" +:+ spaced (isolation_clause level)
              +:+ spaced (access_clause r)
              +:+ spaced (deferrable_clause d) ∧
    spaced None = "" ∧
    includes "  " "begin isolation level repeatable read read only" = false ∧
    ends_with_space "begin isolation level repeatable read read only" = false.
Proof.
  apply (C4_assembly_order (int 2) (VBool true) undefined
           {| begin := "begin isolation level repeatable read read only";
              capBegin := "BEGIN ISOLATION LEVEL REPEATABLE READ READ ONLY" |}).
  reflexivity.
Defined.

(** C5. For every builder that construction yields, [query(true)] is
    [query(false)] upper-cased; a call of the query operation hands back its
    captured variables unchanged, so a second call with the same flag
    returns the same string, and both strings are those fixed at
    construction. *)
Theorem C5_case_law_and_idempotence
    (tiLevel readOnly deferrable : value) (i : instance) :
  construct tiLevel readOnly deferrable = Normal i →
  query i (VBool true) = toUpperCase (query i (VBool false)) ∧
  ∀ cap : value,
    fst (this_begin i cap) = i ∧
    this_begin (fst (this_begin i cap)) cap = this_begin i cap ∧
    query i cap = (if ToBoolean cap then capBegin i else begin i).
Proof.
  intros H. apply construct_Normal in H as (t & r & d & _ & Hbuild).
  apply build_Normal in Hbuild as (level & _ & _ & Hcap).
  split; [exact Hcap|]. intros cap. repeat split.
Qed.

Lemma C5_case_law_and_idempotence_witness :
  query {| begin := "begin read write"; capBegin := "BEGIN READ WRITE" |}
        (VBool true) =
  toUpperCase
    (query {| begin := "begin read write"; capBegin := "BEGIN READ WRITE" |}
           (VBool false)).
Proof.
  apply (C5_case_law_and_idempotence undefined (VBool false) undefined
           {| begin := "begin read write"; capBegin := "BEGIN READ WRITE" |}).
  reflexivity.
Defined.

(** C6 as stated fails: a Symbol as [tiLevel], given directly or in a
    record, makes [tiLevel > 0] raise a [TypeError]; an exception thrown by
    the [valueOf] or [toString] of an object given as [tiLevel], or by a
    getter of the record, leaves the constructor as well. *)
Lemma C6_counterexample :
  construct (VPrim (PSymbol 0)) undefined undefined = Throw TypeError ∧
  construct (record (VPrim (PSymbol 0)) undefined undefined)
    undefined undefined = Throw TypeError ∧
  construct (record (VObject false (λ _, Normal undefined)
                       (λ _, Throw UserThrown)) undefined undefined)
    undefined undefined = Throw UserThrown ∧
  construct (VObject false (λ _, Throw UserThrown)
               (λ _, Normal (PString "[object Object]")))
    undefined undefined = Throw UserThrown ∧
  ¬ (∀ tiLevel readOnly deferrable : value,
       ∃ i, construct tiLevel readOnly deferrable = Normal i).
Proof.
  split_and!; try reflexivity.
  intros H. by destruct (H (VPrim (PSymbol 0)) undefined undefined).
Qed.

(** C6, amended. Construction and the query operation complete and return
    a string whenever [tiLevel] (the first argument when it is a primitive,
    or the [tiLevel] field of a record whose three fields are read without
    an exception) is [undefined], [null], a boolean, a Number, a string or a
    BigInt, whatever [readOnly] and [deferrable] are.  Construction throws
    exactly when reading the record throws or line 67 does, and line 67
    throws exactly when [tiLevel > 0] throws, or holds and the conversion of
    [tiLevel] to a string throws. *)
Theorem C6_completes :
  (∀ (p : prim) (readOnly deferrable : value),
     is_symbol p = false →
     ∃ i, construct (VPrim p) readOnly deferrable = Normal i ∧
          ∀ cap : value, query i cap = begin i ∨ query i cap = capBegin i) ∧
  (∀ (tiLevel readOnly deferrable r d : value) (p : prim),
     is_record tiLevel = true →
     Get tiLevel "readOnly" = Normal r →
     Get tiLevel "deferrable" = Normal d →
     Get tiLevel "tiLevel" = Normal (VPrim p) →
     is_symbol p = false →
     ∃ i, construct tiLevel readOnly deferrable = Normal i ∧
          ∀ cap : value, query i cap = begin i ∨ query i cap = capBegin i) ∧
  (∀ (tiLevel readOnly deferrable : value) (e : exn),
     construct tiLevel readOnly deferrable = Throw e ↔
     unpack tiLevel readOnly deferrable = Throw e ∨
     ∃ t r d, unpack tiLevel readOnly deferrable = Normal (t, r, d) ∧
              normalize t = Throw e) ∧
  (∀ (tiLevel : value) (e : exn),
     normalize tiLevel = Throw e ↔
     gt0 tiLevel = Throw e ∨
     (gt0 tiLevel = Normal true ∧ ToString tiLevel = Throw e)).
Proof.
  assert (∀ i (cap : value), query i cap = begin i ∨ query i cap = capBegin i)
    as Hquery.
  { intros i cap. unfold query, this_begin. simpl.
    destruct (ToBoolean cap); auto. }
  split_and!.
  - intros p readOnly deferrable Hp.
    destruct (normalize_prim p Hp) as [level Hlevel].
    destruct (build_completes (VPrim p) readOnly deferrable level Hlevel)
      as [i Hi].
    exists i. split; [|apply Hquery].
    unfold construct, unpack. rewrite is_record_prim. exact Hi.
  - intros tiLevel readOnly deferrable r d p Hrec Hr Hd Ht Hp.
    destruct (normalize_prim p Hp) as [level Hlevel].
    destruct (build_completes (VPrim p) r d level Hlevel) as [i Hi].
    exists i. split; [|apply Hquery].
    unfold construct, unpack. rewrite Hrec, Hr, Hd, Ht. exact Hi.
  - intros tiLevel readOnly deferrable e. unfold construct.
    destruct (unpack tiLevel readOnly deferrable) as [[[t r] d]|e'] eqn:Hu;
      simpl.
    + unfold build. destruct (normalize t) as [level|e'] eqn:Hn; simpl.
      * split; [done|]. intros [|(? & ? & ? & [= <- <- <-] & ?)]; congruence.
      * split.
        -- intros [= ->]. right. eauto.
        -- intros [|(? & ? & ? & [= <- <- <-] & ?)]; congruence.
    + split; [intros [= ->]; auto|].
      intros [|(? & ? & ? & ? & ?)]; congruence.
  - intros tiLevel e. unfold normalize, parseInt.
    destruct (gt0 tiLevel) as [[]|e'] eqn:Hg; simpl.
    + destruct (ToString tiLevel) as [s|e']; simpl;
        split; try done; try (intros [= ->]; auto);
        intros [|[_ ?]]; congruence.
    + split; [done|]. intros [|[? _]]; congruence.
    + split; [intros [= ->]; auto|]. intros [|[? _]]; congruence.
Qed.

Lemma C6_completes_witness :
  ∃ i, construct (VStr "abc") (int 0) null = Normal i ∧
       ∀ cap : value, query i cap = begin i ∨ query i cap = capBegin i.
Proof.
  apply (proj1 C6_completes (PString "abc") (int 0) null). reflexivity.
Defined.

(** C7. When the first argument is a structured value (a non-null value
    whose [typeof] is ['object']), the builder is the one built from the
    record's [readOnly], [deferrable] and [tiLevel] fields, read in that
    order; the positional [readOnly] and [deferrable] do not matter; and
    when the record's [readOnly] and [deferrable] fields are unset the
    command has no access-mode and no deferrable clause, whatever the
    positional arguments were. *)
Theorem C7_record_argument (tiLevel readOnly deferrable : value) :
  is_record tiLevel = true →
  construct tiLevel readOnly deferrable =
    (r ← Get tiLevel "readOnly";
     d ← Get tiLevel "deferrable";
     t ← Get tiLevel "tiLevel";
     build t r d) ∧
  (∀ readOnly' deferrable' : value,
     construct tiLevel readOnly' deferrable' =
     construct tiLevel readOnly deferrable) ∧
  (Get tiLevel "readOnly" = Normal undefined →
   Get tiLevel "deferrable" = Normal undefined →
   ∀ i, construct tiLevel readOnly deferrable = Normal i →
     ∃ t level,
       Get tiLevel "tiLevel" = Normal t ∧
       normalize t = Normal level ∧
       begin i = "begin" +:+ spaced (isolation_clause level) ∧
       includes "read only" (begin i) = false ∧
       includes "read write" (begin i) = false ∧
       includes "deferrable" (begin i) = false).
Proof.
  intros Hrecord.
  assert (∀ r0 d0, construct tiLevel r0 d0 =
            (r ← Get tiLevel "readOnly";
             d ← Get tiLevel "deferrable";
             t ← Get tiLevel "tiLevel";
             build t r d)) as Hfields.
  { intros r0 d0. unfold construct, unpack. rewrite Hrecord.
    destruct (Get tiLevel "readOnly") as [r|]; simpl; [|done].
    destruct (Get tiLevel "deferrable") as [d|]; simpl; [|done].
    destruct (Get tiLevel "tiLevel") as [t|]; simpl; done. }
  split; [apply Hfields|].
  split; [intros; rewrite !Hfields; reflexivity|].
  intros Hr Hd i. rewrite Hfields, Hr, Hd. simpl.
  destruct (Get tiLevel "tiLevel") as [t|]; simpl; [|done].
  intros Hbuild. exists t.
  apply build_assembly in Hbuild as (level & Hlevel & Hbegin & _).
  exists level. change (access_clause undefined) with (@None string) in Hbegin.
  change (deferrable_clause undefined) with (@None string) in Hbegin.
  simpl spaced in Hbegin at 2 3.
  repeat split; try assumption.
  - rewrite Hbegin. simpl. by rewrite !append_empty.
  - rewrite Hbegin.
    destruct (isolation_clause_cases level)
      as [[-> _]|[[-> _]|[[-> _]|[-> _]]]]; reflexivity.
  - rewrite Hbegin.
    destruct (isolation_clause_cases level)
      as [[-> _]|[[-> _]|[[-> _]|[-> _]]]]; reflexivity.
  - rewrite Hbegin.
    destruct (isolation_clause_cases level)
      as [[-> _]|[[-> _]|[[-> _]|[-> _]]]]; reflexivity.
Qed.

Lemma C7_record_argument_witness :
  is_record (record (int 3) undefined undefined) = true ∧
  ∀ readOnly' deferrable' : value,
    construct (record (int 3) undefined undefined) readOnly' deferrable' =
    construct (record (int 3) undefined undefined) (VBool true) (VBool true).
Proof.
  split; [reflexivity|].
  apply (C7_record_argument (record (int 3) undefined undefined)
           (VBool true) (VBool true)).
  reflexivity.
Defined.

(** C8. The record [{tiLevel: 3, readOnly: false, deferrable: false}] as the
    only argument gives the lower-case command
    ["begin isolation level read committed read write not deferrable"]; no
    argument at all gives ["begin"] and, upper-cased, ["BEGIN"]. *)
Theorem C8_concrete_scenarios :
  (∃ i, construct (record (int 3) (VBool false) (VBool false))
          undefined undefined = Normal i ∧
        query i (VBool false) =
          "begin isolation level read committed read write not deferrable") ∧
  (∃ i, construct undefined undefined undefined = Normal i ∧
        query i (VBool false) = "begin" ∧
        query i (VBool true) = "BEGIN").
Proof.
  split; eexists; repeat split; reflexivity.
Qed.

(** C9. The registry has exactly the four members [none = 0],
    [serializable = 1], [repeatableRead = 2] and [readCommitted = 3]; once
    the module is initialised it is frozen, so every attempt to alter it
    (assigning or deleting a member, defining a property, changing the
    prototype, whether rejected or accepted as a no-op) leaves it as it was,
    and so does any sequence of such attempts, by a caller or by the
    component itself. *)
Theorem C9_registry_frozen :
  dom (properties isolationLevel) =
    ({["none"; "serializable"; "repeatableRead"; "readCommitted"]} : gset string) ∧
  size (properties isolationLevel) = 4 ∧
  properties isolationLevel !! "none" =
    Some (DataProperty (SPrim (PNumber (number_of_Z 0))) false true false) ∧
  properties isolationLevel !! "serializable" =
    Some (DataProperty (SPrim (PNumber (number_of_Z 1))) false true false) ∧
  properties isolationLevel !! "repeatableRead" =
    Some (DataProperty (SPrim (PNumber (number_of_Z 2))) false true false) ∧
  properties isolationLevel !! "readCommitted" =
    Some (DataProperty (SPrim (PNumber (number_of_Z 3))) false true false) ∧
  is_frozen isolationLevel ∧
  (∀ a : alteration, fst (attempt isolationLevel a) = isolationLevel) ∧
  (∀ l : list alteration,
     foldl (λ O a, fst (attempt O a)) isolationLevel l = isolationLevel).
Proof.
  assert (is_frozen isolationLevel) as Hfrozen by apply freeze_is_frozen.
  split_and!; try exact Hfrozen.
  - unfold isolationLevel, freeze, literal. simpl.
    rewrite dom_fmap_L, !dom_insert_L, dom_empty_L. set_solver.
  - vm_compute. reflexivity.
  - vm_compute. reflexivity.
  - vm_compute. reflexivity.
  - vm_compute. reflexivity.
  - vm_compute. reflexivity.
  - intros a. by apply frozen_attempt.
  - intros l. by apply frozen_attempts.
Qed.

(** C10. For every argument triple, calling [TransactionMode] as a plain
    function ([this] undefined) returns what [new TransactionMode] returns on
    the same arguments: the same completion, hence an instance with the same
    lower-case and upper-case strings; two activations are enough. *)
Theorem C10_call_without_new
    (fuel : nat) (tiLevel readOnly deferrable : value) :
  TransactionMode (S (S fuel)) ThisUndefined tiLevel readOnly deferrable =
    TransactionMode (S fuel) ThisFresh tiLevel readOnly deferrable ∧
  TransactionMode (S fuel) ThisFresh tiLevel readOnly deferrable =
    Some (construct tiLevel readOnly deferrable).
Proof.
  split; reflexivity.
Qed.

(** ** Further properties of the constructor *)

Lemma trim_start_digits c a : nonzero_digit c → trim_start (String c a) = String c a.
Proof.
  unfold nonzero_digit. set_unfold.
  intros [->|[->|[->|[->|[->|[->|[->|[->|[->|[]]]]]]]]]]; reflexivity.
Qed.

Lemma is_digit_not_whitespace c : is_digit c = true → is_whitespace c = false.
Proof.
  intros H. pose proof (is_digit_code c H). unfold is_whitespace. lia.
Qed.

Lemma trim_end_digits a : all_digits a = true → trim_end a = a.
Proof.
  induction a as [|c a IH]; [done|]. simpl. intros [Hc Ha]%andb_true_iff.
  rewrite (IH Ha), (is_digit_not_whitespace c Hc). done.
Qed.

Lemma digits_value_pos c a :
  nonzero_digit c → all_digits a = true → (0 < digits_value 0 (String c a))%Z.
Proof.
  intros Hc Ha.
  change (digits_value 0 (String c a)) with (digits_value (0 * 10 + (code c - 48)) a).
  destruct (digits_value_shift a (0 * 10 + (code c - 48)) Ha) as [-> Hr].
  assert (1 ≤ code c - 48)%Z.
  { unfold nonzero_digit in Hc. set_unfold in Hc.
    destruct Hc as [->|[->|[->|[->|[->|[->|[->|[->|[->|[]]]]]]]]]]; vm_compute; discriminate. }
  assert (0 < 10 ^ Z.of_nat (String.length a))%Z by (apply Z.pow_pos_nonneg; lia).
  nia.
Qed.

Lemma StringToNumber_digits c a :
  nonzero_digit c → all_digits a = true →
  StringToNumber (String c a) = LDecimal false (digits_value 0 (String c a)) 0.
Proof.
  intros Hc Ha.
  assert (all_digits (String c a) = true) as Hca.
  { simpl. rewrite Ha, andb_true_r. unfold nonzero_digit in Hc. set_unfold in Hc.
    destruct Hc as [->|[->|[->|[->|[->|[->|[->|[->|[->|[]]]]]]]]]]; reflexivity. }
  pose proof (read_digits_string (String c a) "" ltac:(done) Hca I) as Hread.
  rewrite append_empty in Hread.
  unfold StringToNumber. rewrite trim_start_digits, trim_end_digits by done.
  assert (String.eqb (String c a) "Infinity" = false) as Hinf.
  { unfold nonzero_digit in Hc. set_unfold in Hc.
    destruct Hc as [->|[->|[->|[->|[->|[->|[->|[->|[->|[]]]]]]]]]]; reflexivity. }
  unfold nonzero_digit in Hc. set_unfold in Hc.
  destruct Hc as [->|[->|[->|[->|[->|[->|[->|[->|[->|[]]]]]]]]]];
    cbv beta iota; unfold unsigned_decimal; rewrite Hinf, Hread; cbv beta iota;
    simpl exponent_part; cbv beta iota; f_equal.
Qed.

Lemma trim_start_whitespace ws x :
  all_whitespace ws = true → trim_start (ws +:+ x) = trim_start x.
Proof.
  induction ws as [|c ws IH]; [done|]. simpl. intros [Hc Hws]%andb_true_iff.
  change (String c ws +:+ x) with (String c (ws +:+ x)). simpl.
  rewrite Hc. by apply IH.
Qed.

Lemma trim_end_all_whitespace ws : all_whitespace ws = true → trim_end ws = "".
Proof.
  induction ws as [|c ws IH]; [done|]. simpl. intros [Hc Hws]%andb_true_iff.
  by rewrite (IH Hws), Hc.
Qed.

Lemma trim_end_whitespace c a ws :
  all_digits (String c a) = true → all_whitespace ws = true →
  trim_end (String c a +:+ ws) = String c a.
Proof.
  revert c. induction a as [|c' a IH]; intros c Hd Hws.
  - change (String c "" +:+ ws) with (String c ws). simpl in *.
    apply andb_true_iff in Hd as [Hc _].
    by rewrite trim_end_all_whitespace, (is_digit_not_whitespace c Hc).
  - change (String c (String c' a) +:+ ws) with (String c (String c' a +:+ ws)).
    simpl in Hd. apply andb_true_iff in Hd as [Hc Hd].
    change (trim_end (String c (String c' a +:+ ws)))
      with (let r' := trim_end (String c' a +:+ ws) in
            if is_whitespace c && String.eqb r' "" then "" else String c r').
    rewrite IH by done. cbv zeta.
    by rewrite (is_digit_not_whitespace c Hc).
Qed.

Lemma parseInt_string_trim s : parseInt_string (trim_start s) = parseInt_string s.
Proof.
  unfold parseInt_string.
  assert (trim_start (trim_start s) = trim_start s) as ->; [|done].
  induction s as [|c s IH]; [done|]. simpl.
  destruct (is_whitespace c) eqn:Hc; [done|]. simpl. by rewrite Hc.
Qed.

Lemma stops_whitespace ws : all_whitespace ws = true → stops ws.
Proof.
  destruct ws as [|c ws]; [done|]. simpl. intros [Hc _]%andb_true_iff.
  unfold is_whitespace in Hc. unfold digit_of.
  destruct ((48 <=? code c) && (code c <=? 57))%Z eqn:E1; [lia|].
  destruct ((97 <=? code c) && (code c <=? 122))%Z eqn:E2; [lia|].
  destruct ((65 <=? code c) && (code c <=? 90))%Z eqn:E3; [lia|]. done.
Qed.

Lemma nonzero_digit_all_digits c a :
  nonzero_digit c → all_digits a = true → all_digits (String c a) = true.
Proof.
  intros Hc Ha. simpl. rewrite Ha, andb_true_r.
  unfold nonzero_digit in Hc. set_unfold in Hc.
  destruct Hc as [->|[->|[->|[->|[->|[->|[->|[->|[->|[]]]]]]]]]]; reflexivity.
Qed.

(** Line 67 on a decimal numeral, white space around it allowed. *)
Lemma normalize_numeral (ws ws' : string) (c : ascii) (a : string) :
  all_whitespace ws = true → all_whitespace ws' = true →
  nonzero_digit c → all_digits a = true →
  normalize (VStr (ws +:+ String c a +:+ ws')) =
  Normal (PInt (digits_value 0 (String c a))).
Proof.
  intros Hws Hws' Hc Ha.
  pose proof (nonzero_digit_all_digits c a Hc Ha) as Hca.
  assert (StringToNumber (ws +:+ String c a +:+ ws') =
          LDecimal false (digits_value 0 (String c a)) 0) as Hnum.
  { rewrite <- (StringToNumber_digits c a Hc Ha). unfold StringToNumber.
    rewrite trim_start_whitespace by done.
    change (String c a +:+ ws') with (String c (a +:+ ws')).
    rewrite !trim_start_digits by done.
    change (String c (a +:+ ws')) with (String c a +:+ ws').
    rewrite trim_end_whitespace, trim_end_digits by done. reflexivity. }
  assert (parseInt_string (ws +:+ String c a +:+ ws') =
          PInt (digits_value 0 (String c a))) as Hparse.
  { rewrite <- parseInt_string_trim, trim_start_whitespace,
      parseInt_string_trim by done.
    apply parseInt_digits; [done|done|by apply stops_whitespace]. }
  pose proof (digits_value_pos c a Hc Ha) as Hpos.
  set (v := digits_value 0 (String c a)) in *.
  set (s := ws +:+ String c a +:+ ws') in *.
  unfold normalize.
  change (gt0 (VStr s)) with (Normal (literal_positive (StringToNumber s))).
  change (parseInt (VStr s)) with (Normal (parseInt_string s)).
  rewrite Hnum, Hparse. simpl.
  replace (0 <? v)%Z with true by lia. done.
Qed.

(** The command of a primitive [tiLevel] whose level line 67 is known. *)
Lemma construct_level (p : prim) (readOnly deferrable : value) (level : parsed) :
  normalize (VPrim p) = Normal level →
  ∃ i, construct (VPrim p) readOnly deferrable = Normal i ∧
       begin i = "begin" +:+ spaced (isolation_clause level)
                         +:+ spaced (access_clause readOnly)
                         +:+ spaced (deferrable_clause deferrable).
Proof.
  intros Hlevel.
  destruct (build_completes (VPrim p) readOnly deferrable level Hlevel)
    as [i Hi].
  exists i. unfold construct, unpack. rewrite is_record_prim.
  split; [exact Hi|].
  apply build_assembly in Hi as (level' & Hlevel' & Hbegin & _).
  congruence.
Qed.

Lemma normalize_bigint (z : Z) :
  normalize (VPrim (PBigInt z)) = Normal (PInt (Z.max 0 z)).
Proof.
  unfold normalize.
  change (gt0 (VPrim (PBigInt z))) with (Normal (0 <? z)%Z).
  destruct z as [|p|p]; try reflexivity.
  change (Normal (0 <? Z.pos p)%Z ≫= _)
    with (Normal (parseInt_string (digits p)) : completion parsed).
  rewrite <- (take_all (digits p)), <- (append_empty (take _ _)).
  pose proof (digits_length_bounds p) as (Hk & _).
  rewrite parseInt_take by (done || lia).
  rewrite Z.sub_diag, Z.div_1_r. reflexivity.
Qed.


Lemma build_decode (tiLevel readOnly deferrable : value) (i : instance) :
  build tiLevel readOnly deferrable = Normal i →
  ∃ level,
    normalize tiLevel = Normal level ∧
    decode (begin i) =
      (isolation_clause level, access_clause readOnly,
       deferrable_clause deferrable).
Proof.
  intros H.
  command_cases H level readOnly deferrable; exists level;
    (split; [assumption|]); rewrite Hbegin, Hiso, Hacc, Hdef;
    vm_compute; reflexivity.
Qed.

Lemma toUpperCase_append (a b : string) :
  toUpperCase (a +:+ b) = toUpperCase a +:+ toUpperCase b.
Proof.
  induction a as [|c a IH]; [done|].
  change (String (upper c) (toUpperCase (a +:+ b)) =
          String (upper c) (toUpperCase a +:+ toUpperCase b)).
  by rewrite IH.
Qed.

Lemma length_toUpperCase (s : string) :
  String.length (toUpperCase s) = String.length s.
Proof. induction s as [|c s IH]; simpl; [done|]. by rewrite IH. Qed.

Lemma build_case (tiLevel readOnly deferrable : value) (i : instance) :
  build tiLevel readOnly deferrable = Normal i →
  all_chars (λ c, negb (is_upper c)) (begin i) = true ∧
  all_chars (λ c, negb (is_lower c)) (capBegin i) = true ∧
  toUpperCase (capBegin i) = capBegin i.
Proof.
  intros H.
  command_cases H level readOnly deferrable;
    rewrite Hcap, Hbegin; vm_compute; done.
Qed.

Lemma registry_members (P : string) (p : property) :
  properties isolationLevel !! P = Some p →
  (P = "none" ∧ p = DataProperty (SPrim (PNumber (number_of_Z 0))) false true false) ∨
  (P = "serializable" ∧ p = DataProperty (SPrim (PNumber (number_of_Z 1))) false true false) ∨
  (P = "repeatableRead" ∧ p = DataProperty (SPrim (PNumber (number_of_Z 2))) false true false) ∨
  (P = "readCommitted" ∧ p = DataProperty (SPrim (PNumber (number_of_Z 3))) false true false).
Proof.
  unfold isolationLevel, freeze, literal. simpl. rewrite lookup_fmap.
  intros H.
  destruct (decide (P = "none")) as [->|?];
    [left; split; [done|]; vm_compute in H; vm_compute; congruence|].
  destruct (decide (P = "serializable")) as [->|?];
    [right; left; split; [done|]; vm_compute in H; vm_compute; congruence|].
  destruct (decide (P = "repeatableRead")) as [->|?];
    [right; right; left; split; [done|]; vm_compute in H; vm_compute; congruence|].
  destruct (decide (P = "readCommitted")) as [->|?];
    [right; right; right; split; [done|]; vm_compute in H; vm_compute; congruence|].
  exfalso. rewrite !lookup_insert_ne, lookup_empty in H by done. done.
Qed.

(** X1. Each member of the registry, given as [tiLevel], selects the
    clause its comment documents: [none] no clause, [serializable],
    [repeatableRead] and [readCommitted] theirs, whatever the other two
    arguments. *)
Theorem X1_registry_members_select
    (member : string) (v : prim) (writable enumerable configurable : bool)
    (readOnly deferrable : value) :
  properties isolationLevel !! member =
    Some (DataProperty (SPrim v) writable enumerable configurable) →
  ∃ i, construct (VPrim v) readOnly deferrable = Normal i ∧
       begin i =
         "begin" +:+ spaced (documented member)
                 +:+ spaced (access_clause readOnly)
                 +:+ spaced (deferrable_clause deferrable).
Proof.
  intros H.
  destruct (registry_members _ _ H)
    as [[-> E]|[[-> E]|[[-> E]|[-> E]]]]; injection E as -> _ _ _.
  - apply (construct_level _ readOnly deferrable (PInt 0)). reflexivity.
  - apply (construct_level _ readOnly deferrable (PInt 1)). reflexivity.
  - apply (construct_level _ readOnly deferrable (PInt 2)). reflexivity.
  - apply (construct_level _ readOnly deferrable (PInt 3)). reflexivity.
Qed.

Lemma X1_registry_members_select_witness :
  ∃ i, construct (int 2) (VBool true) undefined = Normal i ∧
       begin i = "begin isolation level repeatable read read only".
Proof.
  apply (X1_registry_members_select "repeatableRead" (PNumber (number_of_Z 2))
           false true false (VBool true) undefined).
  vm_compute. reflexivity.
Defined.

(** X2. A decimal numeral given as a string (first digit not zero, white
    space around it allowed) selects the level it spells: ["1"], ["2"] and
    ["3"] give their clause, any longer numeral or other digit gives
    none. *)
Theorem X2_numeral_string
    (ws ws' : string) (c : ascii) (a : string) (readOnly deferrable : value) :
  all_whitespace ws = true → all_whitespace ws' = true →
  nonzero_digit c → all_digits a = true →
  ∃ i, construct (VStr (ws +:+ String c a +:+ ws')) readOnly deferrable = Normal i ∧
       begin i =
         "begin" +:+ spaced (isolation_clause (PInt (digits_value 0 (String c a))))
                 +:+ spaced (access_clause readOnly)
                 +:+ spaced (deferrable_clause deferrable) ∧
       (isolation_clause (PInt (digits_value 0 (String c a))) ≠ None ↔
        a = "" ∧ (c = "1" ∨ c = "2" ∨ c = "3")%char).
Proof.
  intros Hws Hws' Hc Ha.
  destruct (construct_level (PString (ws +:+ String c a +:+ ws'))
              readOnly deferrable _ (normalize_numeral ws ws' c a Hws Hws' Hc Ha))
    as (i & Hi & Hbegin).
  exists i. split; [exact Hi|]. split; [exact Hbegin|].
  destruct a as [|c' a].
  - unfold nonzero_digit in Hc. set_unfold in Hc.
    destruct Hc as [->|[->|[->|[->|[->|[->|[->|[->|[->|[]]]]]]]]]];
      vm_compute; intuition congruence.
  - (* two digits or more: 10 or greater *)
    simpl in Ha. apply andb_true_iff in Ha as [Hc' Ha].
    assert (10 ≤ digits_value 0 (String c (String c' a)))%Z as Hten.
    { change (digits_value 0 (String c (String c' a)))
        with (digits_value ((0 * 10 + (code c - 48)) * 10 + (code c' - 48)) a).
      destruct (digits_value_shift a
                  ((0 * 10 + (code c - 48)) * 10 + (code c' - 48)) Ha) as [-> Hr].
      pose proof (is_digit_code c' Hc').
      assert (1 ≤ code c - 48)%Z.
      { unfold nonzero_digit in Hc. set_unfold in Hc.
        destruct Hc as [->|[->|[->|[->|[->|[->|[->|[->|[->|[]]]]]]]]]];
          vm_compute; discriminate. }
      assert (1 ≤ 10 ^ Z.of_nat (String.length a))%Z
        by (pose proof (Z.pow_pos_nonneg 10 (Z.of_nat (String.length a))); lia).
      nia. }
    unfold isolation_clause.
    replace (_ <? 4)%Z with false by lia. rewrite andb_false_r.
    split; [done|]. intros [? _]. done.
Qed.

Lemma X2_numeral_string_witness :
  ∃ i, construct (VStr " 2 ") (VBool true) undefined = Normal i ∧
       begin i = "begin isolation level repeatable read read only".
Proof.
  destruct (X2_numeral_string " " " " "2" "" (VBool true) undefined)
    as (i & Hi & Hbegin & _);
    [reflexivity|reflexivity|by apply (bool_decide_unpack _)|reflexivity|].
  exists i. split; [exact Hi|exact Hbegin].
Defined.

(** X3. A BigInt [tiLevel] counts by its exact value at every size: [1n],
    [2n] and [3n] give their clause, every other BigInt none. *)
Theorem X3_bigint_level (z : Z) (readOnly deferrable : value) :
  ∃ i, construct (VPrim (PBigInt z)) readOnly deferrable = Normal i ∧
       begin i =
         "begin" +:+ spaced (isolation_clause (PInt (Z.max 0 z)))
                 +:+ spaced (access_clause readOnly)
                 +:+ spaced (deferrable_clause deferrable) ∧
       (isolation_clause (PInt (Z.max 0 z)) ≠ None ↔ (1 ≤ z ≤ 3)%Z).
Proof.
  destruct (construct_level (PBigInt z) readOnly deferrable _
              (normalize_bigint z)) as (i & Hi & Hbegin).
  exists i. split; [exact Hi|]. split; [exact Hbegin|].
  destruct (isolation_clause_cases (PInt (Z.max 0 z)))
    as [[-> Hl]|[[-> Hl]|[[-> Hl]|[-> (H1 & H2 & H3)]]]];
    try (injection Hl as Hl; split; [lia|done]).
  split; [done|]. intros Hz. exfalso.
  assert (Z.max 0 z = 1 ∨ Z.max 0 z = 2 ∨ Z.max 0 z = 3)%Z
    as [E|[E|E]] by lia; rewrite E in *; done.
Qed.



(** X5. A Number from [10^-6] up to, not including, 1 gives no isolation
    clause. *)
Theorem X5_fraction (s : positive) (n : Z) (readOnly deferrable : value) :
  (-6 < n ≤ 0)%Z →
  ∃ i, construct (VNum (NFin false s n)) readOnly deferrable = Normal i ∧
       begin i =
         "begin" +:+ spaced (access_clause readOnly)
                 +:+ spaced (deferrable_clause deferrable).
Proof.
  intros Hn.
  apply (construct_level (PNumber (NFin false s n)) readOnly deferrable (PInt 0)).
  by apply normalize_fraction.
Qed.

Lemma X5_fraction_witness :
  ∃ i, construct (VNum (NFin false 5 0)) undefined undefined = Normal i ∧
       begin i = "begin".
Proof.
  apply (X5_fraction 5 0 undefined undefined). lia.
Defined.

(** X6. [undefined], [null], both booleans ([true] is positive under [>],
    but [parseInt("true")] is [NaN]), [NaN] and both infinities give no
    isolation clause, and no error. *)
Theorem X6_no_level_primitives (p : prim) (readOnly deferrable : value) :
  p = PUndefined ∨ p = PNull ∨ (∃ b, p = PBoolean b) ∨
  p = PNumber NNaN ∨ (∃ neg, p = PNumber (NInf neg)) →
  ∃ i, construct (VPrim p) readOnly deferrable = Normal i ∧
       begin i =
         "begin" +:+ spaced (access_clause readOnly)
                 +:+ spaced (deferrable_clause deferrable).
Proof.
  intros [->|[->|[[[] ->]|[->|[[] ->]]]]].
  - apply (construct_level _ readOnly deferrable (PInt 0)). reflexivity.
  - apply (construct_level _ readOnly deferrable (PInt 0)). reflexivity.
  - apply (construct_level _ readOnly deferrable PNaN). reflexivity.
  - apply (construct_level _ readOnly deferrable (PInt 0)). reflexivity.
  - apply (construct_level _ readOnly deferrable (PInt 0)). reflexivity.
  - apply (construct_level _ readOnly deferrable (PInt 0)). reflexivity.
  - apply (construct_level _ readOnly deferrable PNaN). reflexivity.
Qed.

Lemma X6_no_level_primitives_witness :
  ∃ i, construct (VBool true) undefined undefined = Normal i ∧
       begin i = "begin".
Proof.
  apply (X6_no_level_primitives (PBoolean true) undefined undefined).
  right; right; left. by exists true.
Defined.

(** X7. [readOnly] and [deferrable] are tested, never converted: whether
    construction throws, and what, does not depend on them, whatever they
    are (objects with throwing [valueOf] or getters included). *)
Theorem X7_flags_never_throw
    (tiLevel readOnly deferrable readOnly' deferrable' : value) (e : exn) :
  construct tiLevel readOnly deferrable = Throw e ↔
  construct tiLevel readOnly' deferrable' = Throw e.
Proof.
  assert (∀ t r d, build t r d = Throw e ↔ normalize t = Throw e) as Hbuild.
  { intros t r d. unfold build.
    destruct (normalize t) as [level|e']; simpl; split; congruence. }
  unfold construct, unpack. destruct (is_record tiLevel); [done|].
  simpl. by rewrite !Hbuild.
Qed.

(** X8. With a record as first argument, the exception that leaves the
    constructor is that of the first failing step in the order [readOnly],
    [deferrable], [tiLevel], and then line 67 on the [tiLevel] read. *)
Theorem X8_record_read_order
    (tiLevel readOnly deferrable : value) (e : exn) :
  is_record tiLevel = true →
  construct tiLevel readOnly deferrable = Throw e ↔
  Get tiLevel "readOnly" = Throw e ∨
  (∃ r, Get tiLevel "readOnly" = Normal r ∧
        (Get tiLevel "deferrable" = Throw e ∨
         ∃ d, Get tiLevel "deferrable" = Normal d ∧
              (Get tiLevel "tiLevel" = Throw e ∨
               ∃ t, Get tiLevel "tiLevel" = Normal t ∧
                    normalize t = Throw e))).
Proof.
  intros Hrec. unfold construct, unpack. rewrite Hrec.
  destruct (Get tiLevel "readOnly") as [r|e1]; simpl.
  - destruct (Get tiLevel "deferrable") as [d|e2]; simpl.
    + destruct (Get tiLevel "tiLevel") as [t|e3]; simpl.
      * unfold build. destruct (normalize t) as [level|e4] eqn:Hn; simpl.
        -- split; [done|].
           intros [|(? & [= <-] & [|(? & [= <-] & [|(? & [= <-] & ?)])])];
             congruence.
        -- split.
           ++ intros [= ->]. right. eexists; split; [done|]. right.
              eexists; split; [done|]. right. eauto.
           ++ intros [|(? & [= <-] & [|(? & [= <-] & [|(? & [= <-] & ?)])])];
                congruence.
      * split.
        -- intros [= ->]. right. eexists; split; [done|]. right.
           eexists; split; [done|]. by left.
        -- intros [|(? & _ & [|(? & _ & [|(? & ? & _)])])]; congruence.
    + split.
      * intros [= ->]. right. eexists; split; [done|]. by left.
      * intros [|(? & _ & [|(? & ? & _)])]; congruence.
  - split; [intros [= ->]; by left|].
    intros [|(? & ? & _)]; congruence.
Qed.

Lemma X8_record_read_order_witness :
  construct (VObject false
               (λ P, if String.eqb P "readOnly" then Throw UserThrown
                     else Normal (VPrim (PSymbol 0)))
               (λ _, Throw TypeError))
    undefined undefined = Throw UserThrown.
Proof.
  apply (X8_record_read_order _ undefined undefined UserThrown); [reflexivity|].
  left. reflexivity.
Defined.

(** X9. An object without the three fields as first argument (an array, a
    boxed Number, [{}]) gives the bare command: it is never converted to a
    level, and the positional [readOnly] and [deferrable] are dropped. *)
Theorem X9_object_without_fields
    (get : string → completion value) (toPrimitive : hint → completion prim)
    (readOnly deferrable : value) :
  get "readOnly" = Normal undefined →
  get "deferrable" = Normal undefined →
  get "tiLevel" = Normal undefined →
  construct (VObject false get toPrimitive) readOnly deferrable =
    Normal {| begin := "begin"; capBegin := "BEGIN" |}.
Proof.
  intros Hr Hd Ht. unfold construct, unpack. simpl. rewrite Hr, Hd, Ht.
  reflexivity.
Qed.

Lemma X9_object_without_fields_witness :
  construct (VObject false (λ _, Normal undefined)
               (λ h, Normal (match h with
                             | HintNumber => PNumber (number_of_Z 2)
                             | HintString => PString "2"
                             end)))
    (VBool true) (VBool true) =
    Normal {| begin := "begin"; capBegin := "BEGIN" |}.
Proof.
  apply X9_object_without_fields; reflexivity.
Defined.

(** X10. A record is unpacked once: an object in the [tiLevel] field that
    converts to a string that is no numeric literal (a plain object converts
    to ["[object Object]"]) gives no isolation clause, its own fields never
    read; the outer [readOnly] and [deferrable] still apply. *)
Theorem X10_nested_record
    (callable : bool) (get : string → completion value)
    (toPrimitive : hint → completion prim) (s : string)
    (r d readOnly deferrable : value) :
  toPrimitive HintNumber = Normal (PString s) →
  StringToNumber s = LNaN →
  ∃ i, construct (record (VObject callable get toPrimitive) r d)
         readOnly deferrable = Normal i ∧
       begin i =
         "begin" +:+ spaced (access_clause r) +:+ spaced (deferrable_clause d).
Proof.
  intros Hp Hs.
  assert (normalize (VObject callable get toPrimitive) = Normal (PInt 0))
    as Hlevel.
  { apply normalize_not_positive. unfold gt0. simpl. rewrite Hp. simpl.
    by rewrite Hs. }
  destruct (build_completes _ r d _ Hlevel) as [i Hi].
  exists i. split; [exact Hi|].
  apply build_assembly in Hi as (level & Hl & Hbegin & _).
  assert (level = PInt 0) as -> by congruence. exact Hbegin.
Qed.

Lemma X10_nested_record_witness :
  ∃ i, construct (record (record (int 1) (VBool true) (VBool true))
                    (VBool false) undefined)
         undefined undefined = Normal i ∧
       begin i = "begin read write".
Proof.
  apply (X10_nested_record false _ _ "[object Object]" (VBool false) undefined
           undefined undefined); reflexivity.
Defined.

(** X11. The lower-case command determines its three clauses: they are
    read back from it by substring search, so two constructed builders have
    the same command exactly when they have the same three clauses. *)
Theorem X11_command_decodes
    (tiLevel readOnly deferrable tiLevel' readOnly' deferrable' : value)
    (i i' : instance) :
  construct tiLevel readOnly deferrable = Normal i →
  construct tiLevel' readOnly' deferrable' = Normal i' →
  ∃ t r d level t' r' d' level',
    unpack tiLevel readOnly deferrable = Normal (t, r, d) ∧
    normalize t = Normal level ∧
    unpack tiLevel' readOnly' deferrable' = Normal (t', r', d') ∧
    normalize t' = Normal level' ∧
    decode (begin i) =
      (isolation_clause level, access_clause r, deferrable_clause d) ∧
    (begin i = begin i' ↔
     isolation_clause level = isolation_clause level' ∧
     access_clause r = access_clause r' ∧
     deferrable_clause d = deferrable_clause d').
Proof.
  intros H H'.
  apply construct_Normal in H as (t & r & d & Hu & Hb).
  apply construct_Normal in H' as (t' & r' & d' & Hu' & Hb').
  pose proof (build_decode _ _ _ _ Hb) as (level & Hl & Hdec).
  pose proof (build_decode _ _ _ _ Hb') as (level' & Hl' & Hdec').
  exists t, r, d, level, t', r', d', level'.
  repeat (split; [assumption|]).
  split.
  - intros E. rewrite E, Hdec' in Hdec. by injection Hdec.
  - intros (E1 & E2 & E3).
    apply build_assembly in Hb as (l1 & Hl1 & -> & _).
    apply build_assembly in Hb' as (l2 & Hl2 & -> & _).
    congruence.
Qed.

Lemma X11_command_decodes_witness :
  decode "begin read write" = (None, Some "read write", None).
Proof.
  destruct (X11_command_decodes undefined (VBool false) undefined
              undefined null undefined
              {| begin := "begin read write"; capBegin := "BEGIN READ WRITE" |}
              {| begin := "begin read write"; capBegin := "BEGIN READ WRITE" |}
              eq_refl eq_refl)
    as (t & r & d & level & t' & r' & d' & level' & Hu & Hl & _ & _ & Hdec & _).
  injection Hu as <- <- <-. injection Hl as <-. exact Hdec.
Defined.

(** X12. The upper-case command is ["BEGIN"] and the upper-cased clauses
    in the same order, as long as the lower-case one; the lower-case command
    has no upper-case letter, the upper-case command no lower-case letter,
    and upper-casing it again changes nothing. *)
Theorem X12_letter_case
    (tiLevel readOnly deferrable : value) (i : instance) :
  construct tiLevel readOnly deferrable = Normal i →
  ∃ t r d level,
    unpack tiLevel readOnly deferrable = Normal (t, r, d) ∧
    normalize t = Normal level ∧
    capBegin i =
      "BEGIN" +:+ toUpperCase (spaced (isolation_clause level))
              +:+ toUpperCase (spaced (access_clause r))
              +:+ toUpperCase (spaced (deferrable_clause d)) ∧
    String.length (capBegin i) = String.length (begin i) ∧
    all_chars (λ c, negb (is_upper c)) (begin i) = true ∧
    all_chars (λ c, negb (is_lower c)) (capBegin i) = true ∧
    toUpperCase (capBegin i) = capBegin i.
Proof.
  intros H. apply construct_Normal in H as (t & r & d & Hu & Hb).
  pose proof (build_case _ _ _ _ Hb) as (Hlow & Hup & Hidem).
  pose proof (build_Normal _ _ _ _ Hb) as (level0 & _ & _ & Hcap).
  apply build_assembly in Hb as (level & Hl & Hbegin & _).
  exists t, r, d, level. repeat (split; [assumption|]).
  split; [|split; [by rewrite Hcap, length_toUpperCase|done]].
  rewrite Hcap, Hbegin, !toUpperCase_append. reflexivity.
Qed.

Lemma X12_letter_case_witness :
  toUpperCase "BEGIN NOT DEFERRABLE" = "BEGIN NOT DEFERRABLE".
Proof.
  destruct (X12_letter_case undefined undefined (VBool false)
              {| begin := "begin not deferrable";
                 capBegin := "BEGIN NOT DEFERRABLE" |} eq_refl)
    as (t & r & d & level & _ & _ & _ & _ & _ & _ & H).
  exact H.
Defined.
